(** * The operation forwarder of the PKCS#11 sign provider (src/ossl.c)

    A shallow embedding of the two parts of [src/ossl.c] that carry logic:

    - the backend resolver [fwd_get_func] with its typed wrappers
      [fwd_keymgmt_get_func], [fwd_keyexch_get_func], [fwd_asym_get_func]
      and [fwd_sign_get_func];
    - the signature codec [ossl_ecdsa_signature].

    C pointers that may be NULL are options, C strings are [string]s,
    NULL-terminated arrays are lists, the per-handle array [alg_cache] is a
    finite map from operation ids to tables, and the calls made into
    libcrypto are recorded in a trace so that "queried", "released" and
    "no work done" can be stated. *)

From Stdlib Require Import ZArith Ascii String List Bool Lia.
From stdpp Require Import base option list gmap strings.

Local Open Scope Z_scope.

(** ** Outcomes

    A C call either returns or runs into undefined behaviour (a NULL
    dereference, an access outside a buffer).  [Fault] stands for the
    latter. *)

Inductive outcome (A : Type) : Type :=
| Fault : outcome A
| Ret : A -> outcome A.
Arguments Fault {A}.
Arguments Ret {A} _.

(** ** C strings *)

Module CString.

(** [tolower] of the C locale: only 'A'..'Z' are folded. *)
Definition tolower (c : ascii) : ascii :=
  let n := nat_of_ascii c in
  if ((65 <=? n) && (n <=? 90))%nat then ascii_of_nat (n + 32) else c.

Definition chr_eq_ci (a b : ascii) : bool :=
  Ascii.eqb (tolower a) (tolower b).

(** [strlen] *)
Definition strlen (s : string) : nat := String.length s.

(** Does [needle], letter case ignored, start [haystack]? *)
Fixpoint prefix_ci (needle haystack : string) : bool :=
  match needle, haystack with
  | EmptyString, _ => true
  | String _ _, EmptyString => false
  | String a n', String b h' => chr_eq_ci a b && prefix_ci n' h'
  end.

(** [strcasestr haystack needle]: the offset of the first occurrence of
    [needle] in [haystack], letter case ignored; [None] is the NULL
    result.  An empty needle is found at offset 0. *)
Fixpoint strcasestr (haystack needle : string) : option nat :=
  if prefix_ci needle haystack then Some 0%nat
  else match haystack with
       | EmptyString => None
       | String _ h' => S <$> strcasestr h' needle
       end.

(** [s[i]], where [None] is the terminating NUL (or beyond). *)
Definition char_at (s : string) (i : nat) : option ascii := String.get i s.

(** The two strings are equal up to letter case. *)
Fixpoint eq_ci (s t : string) : bool :=
  match s, t with
  | EmptyString, EmptyString => true
  | String a s', String b t' => chr_eq_ci a b && eq_ci s' t'
  | _, _ => false
  end.

End CString.
Import CString.

(** ** Algorithm tables (openssl/core.h) *)

(** Modelled from the spec: [func_t] is a typedef of common.h, which is not
    among the sources; ossl.c only copies and returns such values.  Here it
    is an opaque reference, never NULL inside a table. *)
Definition func_t := positive.

Record OSSL_DISPATCH := {
  function_id : Z;
  function : func_t
}.

(** One descriptor: the colon-delimited alias list and the function table.
    A table is the list of the descriptors that precede the terminator
    (the one whose [algorithm_names] is NULL). *)
Record OSSL_ALGORITHM := {
  algorithm_names : string;
  implementation : list OSSL_DISPATCH
}.

(** Operation ids (openssl/core_dispatch.h) and key types (openssl/evp.h). *)
Definition OSSL_OP_KEYMGMT : Z := 10.
Definition OSSL_OP_KEYEXCH : Z := 11.
Definition OSSL_OP_SIGNATURE : Z := 12.
Definition OSSL_OP_ASYM_CIPHER : Z := 13.
Definition OSSL_OP__HIGHEST : Z := 22.

Definition EVP_PKEY_RSA : Z := 6.
Definition EVP_PKEY_RSA_PSS : Z := 912.
Definition EVP_PKEY_EC : Z := 408.

(** ** The backend and the handle *)

(** The loaded backend: what [OSSL_PROVIDER_query_operation] returns for an
    operation id, i.e. the table pointer (possibly NULL) together with the
    value the backend leaves in [*no_cache]. *)
Record OSSL_PROVIDER := {
  query_operation : Z -> option (list OSSL_ALGORITHM) * Z
}.

(** Modelled from the spec: [struct ossl_provider] is declared in common.h,
    which is not among the sources (a loaded backend that "holds a name and
    an algorithm-table cache indexed by operation kind").  The fields are
    those ossl.c reads in the resolver: [fwd->provider] and
    [fwd->alg_cache[operation_id]].  A slot of [alg_cache] that holds NULL
    is an absent key. *)
Record ossl_provider := {
  provider : option OSSL_PROVIDER;
  alg_cache : gmap Z (list OSSL_ALGORITHM)
}.

(** Calls into the backend, in program order. *)
Inductive event :=
| Query (operation_id : Z)
| Unquery (operation_id : Z) (algs : list OSSL_ALGORITHM).

(** ** fwd_get_func *)

(** The three tests of the loop body on one descriptor: the first
    occurrence found by [strcasestr] must be followed by NUL or ':' and
    must start the list or be preceded by ':'. *)
Definition is_colon (c : option ascii) : bool :=
  match c with
  | Some c => Ascii.eqb c ":"
  | None => false
  end.

Definition is_nul (c : option ascii) : bool :=
  match c with
  | Some _ => false
  | None => true
  end.

Definition entry_matches (names algorithm : string) : bool :=
  let algolen := strlen algorithm in
  match strcasestr names algorithm with
  | None => false
  | Some found =>
      if negb (is_nul (char_at names (found + algolen)))
         && negb (is_colon (char_at names (found + algolen)))
      then false
      else if negb (found =? 0)%nat
              && negb (is_colon (char_at names (found - 1)))
      then false
      else true
  end.

(** The inner loop: scan the function table up to the terminating id 0. *)
Fixpoint find_function (impl : list OSSL_DISPATCH) (fid : Z) : option func_t :=
  match impl with
  | [] => None
  | d :: rest =>
      if function_id d =? 0 then None
      else if function_id d =? fid then Some (function d)
      else find_function rest fid
  end.

(** The outer loop: the first matching descriptor decides. *)
Fixpoint scan_algorithms (algs : list OSSL_ALGORITHM) (algorithm : string)
    (fid : Z) : option func_t :=
  match algs with
  | [] => None
  | a :: rest =>
      if entry_matches (algorithm_names a) algorithm
      then find_function (implementation a) fid
      else scan_algorithms rest algorithm fid
  end.

(** The descriptor the outer loop stops at, if any. *)
Fixpoint selected_entry (algs : list OSSL_ALGORITHM) (algorithm : string)
    : option OSSL_ALGORITHM :=
  match algs with
  | [] => None
  | a :: rest =>
      if entry_matches (algorithm_names a) algorithm then Some a
      else selected_entry rest algorithm
  end.

(** What a call leaves behind: the function reference, the handle as the
    call left it, and the backend calls it made. *)
Record resolution := {
  res_func : option func_t;
  res_fwd : option ossl_provider;
  res_trace : list event
}.

Definition fwd_get_func (fwd : option ossl_provider) (operation_id : Z)
    (algorithm : option string) (fid : Z) : outcome resolution :=
  match algorithm with
  | None => Fault (* strlen(algorithm) in the declarations *)
  | Some algorithm =>
      match fwd with
      | None => Ret {| res_func := None; res_fwd := fwd; res_trace := [] |}
      | Some f =>
          match provider f with
          | None => Ret {| res_func := None; res_fwd := fwd; res_trace := [] |}
          | Some prov =>
              if (operation_id <=? 0) || (OSSL_OP__HIGHEST <? operation_id)
              then Ret {| res_func := None; res_fwd := fwd; res_trace := [] |}
              else
                let cached := alg_cache f !! operation_id in
                let '(default_algos, no_cache, query) :=
                  match cached with
                  | Some t => (Some t, 0, 0)
                  | None =>
                      let '(t, nc) := query_operation prov operation_id in
                      (t, nc, 1)
                  end in
                let func :=
                  match default_algos with
                  | Some algs => scan_algorithms algs algorithm fid
                  | None => None
                  end in
                let queried :=
                  if query =? 1 then [Query operation_id] else [] in
                let released :=
                  match default_algos with
                  | Some algs =>
                      if query =? 1 then [Unquery operation_id algs] else []
                  | None => []
                  end in
                let cache' :=
                  if (no_cache =? 0) && bool_decide (cached = None)
                  then match default_algos with
                       | Some algs => <[operation_id := algs]> (alg_cache f)
                       | None => alg_cache f
                       end
                  else alg_cache f in
                Ret {| res_func := func;
                       res_fwd := Some {| provider := provider f;
                                          alg_cache := cache' |};
                       res_trace := queried ++ released |}
          end
      end
  end.

(** ** fwd_get_algo and the typed wrappers *)

Definition fwd_get_algo (pkey_type : Z) (sign : bool) : option string :=
  if pkey_type =? EVP_PKEY_RSA then Some "RSA"%string
  else if pkey_type =? EVP_PKEY_RSA_PSS then Some "RSA-PSS"%string
  else if pkey_type =? EVP_PKEY_EC then
    if sign then Some "ECDSA"%string else Some "EC"%string
  else None.

Definition fwd_keymgmt_get_func (fwd : option ossl_provider) (pkey_type : Z)
    (fid : Z) : outcome resolution :=
  fwd_get_func fwd OSSL_OP_KEYMGMT (fwd_get_algo pkey_type false) fid.

Definition fwd_keyexch_get_func (fwd : option ossl_provider) (fid : Z)
    : outcome resolution :=
  fwd_get_func fwd OSSL_OP_KEYEXCH (Some "ECDH"%string) fid.

Definition fwd_asym_get_func (fwd : option ossl_provider) (pkey_type : Z)
    (fid : Z) : outcome resolution :=
  fwd_get_func fwd OSSL_OP_ASYM_CIPHER (fwd_get_algo pkey_type false) fid.

Definition fwd_sign_get_func (fwd : option ossl_provider) (pkey_type : Z)
    (fid : Z) : outcome resolution :=
  fwd_get_func fwd OSSL_OP_SIGNATURE (fwd_get_algo pkey_type true) fid.

(** ** Whole aliases, in the words of the specification

    The name occurs in the colon-delimited list at some offset, bounded on
    the left by the start of the list or a colon and on the right by the end
    of the list or a colon.  Letters are compared as the code compares them,
    case ignored. *)

Fixpoint string_drop (n : nat) (s : string) : string :=
  match n, s with
  | O, _ => s
  | S n', String _ s' => string_drop n' s'
  | S _, EmptyString => EmptyString
  end.

Definition bounded_occurrence_at (names name : string) (i : nat) : bool :=
  prefix_ci name (string_drop i names)
  && ((i =? 0)%nat || is_colon (char_at names (i - 1)))
  && (is_nul (char_at names (i + strlen name))
      || is_colon (char_at names (i + strlen name))).

Definition occurs_as_whole_alias (names name : string) : bool :=
  existsb (bounded_occurrence_at names name)
          (seq 0 (S (String.length names))).

(** The aliases of a list: its maximal colon-free pieces. *)
Fixpoint aliases (names : string) : list string :=
  match names with
  | EmptyString => [EmptyString]
  | String c rest =>
      if Ascii.eqb c ":" then EmptyString :: aliases rest
      else match aliases rest with
           | [] => [String c EmptyString]
           | a :: l => String c a :: l
           end
  end.


(** * The signature codec *)

(** ** libcrypto, as far as [ossl_ecdsa_signature] uses it

    [BN_bin2bn], [ECDSA_SIG_set0] and [i2d_ECDSA_SIG] belong to OpenSSL.
    They are modelled after OpenSSL 3 (crypto/bn/bn_lib.c,
    crypto/ec/ec_asn1.c, crypto/asn1_dsa.c): a bignum is its value, the
    encoding is the DER of SEQUENCE { INTEGER r, INTEGER s } with lengths
    of at most 0xffff.  What may fail for lack of memory is decided by a
    [libcrypto] record, so that every exit of the codec can be reached. *)

Definition byte := Byte.byte.

Definition Z_of_byte (b : byte) : Z := Z.of_N (Byte.to_N b).

Definition byte_of_Z (z : Z) : byte :=
  match Byte.of_N (Z.to_N (z mod 256)) with
  | Some b => b
  | None => Byte.x00
  end.

Record libcrypto := {
  ECDSA_SIG_new_ok : bool;       (* ECDSA_SIG_new returns non-NULL *)
  BN_new_r_ok : bool;            (* the bignum for r can be allocated *)
  BN_new_s_ok : bool;            (* the bignum for s can be allocated *)
  i2d_size_ok : bool;            (* the sizing call finds its memory *)
  i2d_write_stop : option nat    (* the writing call runs out of memory
                                    after that many bytes; None: it does not *)
}.

(** Calls into libcrypto, in program order. *)
Inductive libcrypto_call :=
| Call_ECDSA_SIG_new
| Call_BN_bin2bn
| Call_ECDSA_SIG_set0
| Call_i2d_ECDSA_SIG (writing : bool)
| Call_ECDSA_SIG_free.

(** Conversion of a [size_t] to the [int] parameter of [BN_bin2bn]. *)
Definition int_of_size_t (z : Z) : Z :=
  let w := z mod 2 ^ 32 in
  if w <? 2 ^ 31 then w else w - 2 ^ 32.

(** The value of a big-endian byte string. *)
Definition be_value (s : list byte) : Z :=
  fold_left (fun acc b => acc * 256 + Z_of_byte b) s 0.

(** [BN_bin2bn(buf + off, len, NULL)]: NULL when no bignum can be had or
    the length is negative, otherwise the value of the [len] bytes at
    [off]; reading outside [buf] is a fault. *)
Definition BN_bin2bn (ok : bool) (buf : list byte) (off len : Z)
    : outcome (option Z) :=
  let len := int_of_size_t len in
  if negb ok then Ret None
  else if len <? 0 then Ret None
  else if len =? 0 then Ret (Some 0)
  else if off + len <=? Z.of_nat (length buf)
       then Ret (Some (be_value (take (Z.to_nat len) (drop (Z.to_nat off) buf))))
       else Fault.

Record ECDSA_SIG := { sig_r : Z; sig_s : Z }.

(** [ECDSA_SIG_set0]: 0 when either bignum is NULL, else 1. *)
Definition ECDSA_SIG_set0 (r s : option Z) : Z * option ECDSA_SIG :=
  match r, s with
  | Some r, Some s => (1, Some {| sig_r := r; sig_s := s |})
  | _, _ => (0, None)
  end.

Definition BN_num_bits (n : Z) : Z :=
  if n =? 0 then 0 else Z.log2 n + 1.

(** [BN_bn2binpad]: [len] bytes, big-endian, zero-padded on the left. *)
Definition BN_bn2binpad (n : Z) (len : nat) : list byte :=
  map (fun i => byte_of_Z (Z.shiftr n (8 * Z.of_nat i))) (rev (seq 0 len)).

Definition ID_INTEGER : byte := Byte.x02.
Definition ID_SEQUENCE : byte := Byte.x30.

Definition ossl_encode_der_length (cont_len : Z) : option (list byte) :=
  if 65535 <? cont_len then None
  else if 255 <? cont_len
       then Some [Byte.x82; byte_of_Z (cont_len / 256); byte_of_Z cont_len]
  else if 127 <? cont_len then Some [Byte.x81; byte_of_Z cont_len]
  else Some [byte_of_Z cont_len].

Definition ossl_encode_der_integer (n : Z) : option (list byte) :=
  if n <? 0 then None
  else
    let cont_len := BN_num_bits n / 8 + 1 in
    match ossl_encode_der_length cont_len with
    | None => None
    | Some l => Some (ID_INTEGER :: l ++ BN_bn2binpad n (Z.to_nat cont_len))
    end.

Definition ossl_encode_der_dsa_sig (r s : Z) : option (list byte) :=
  match ossl_encode_der_integer r, ossl_encode_der_integer s with
  | Some er, Some es =>
      let content := er ++ es in
      match ossl_encode_der_length (Z.of_nat (length content)) with
      | None => None
      | Some l => Some (ID_SEQUENCE :: l ++ content)
      end
  | _, _ => None
  end.

(** [i2d_ECDSA_SIG(sig, NULL)]: the length of the encoding, or -1. *)
Definition i2d_ECDSA_SIG_size (ok : bool) (sig : ECDSA_SIG) : Z :=
  if ok then
    match ossl_encode_der_dsa_sig (sig_r sig) (sig_s sig) with
    | Some der => Z.of_nat (length der)
    | None => -1
    end
  else -1.

(** Writing [bytes] at the start of [buf]; beyond its end is a fault. *)
Definition write_bytes (bytes buf : list byte) : outcome (list byte) :=
  if (length bytes <=? length buf)%nat
  then Ret (bytes ++ drop (length bytes) buf)
  else Fault.

(** [i2d_ECDSA_SIG(sig, &der)] with [der] pointing to [buf]: the length
    written and the buffer afterwards, or -1 and the buffer with what had
    been written when the call gave up.  (A pair without encoding is
    refused here with the buffer as it was; the codec never asks for it,
    since its sizing call on the same pair has succeeded by then.) *)
Definition i2d_ECDSA_SIG_write (stop : option nat) (sig : ECDSA_SIG)
    (buf : list byte) : outcome (Z * list byte) :=
  match ossl_encode_der_dsa_sig (sig_r sig) (sig_s sig) with
  | None => Ret (-1, buf)
  | Some der =>
      match stop with
      | None =>
          match write_bytes der buf with
          | Ret buf' => Ret (Z.of_nat (length der), buf')
          | Fault => Fault
          end
      | Some k =>
          match write_bytes (take k der) buf with
          | Ret buf' => Ret (-1, buf')
          | Fault => Fault
          end
      end
  end.

(** ** ossl_ecdsa_signature *)

(** Modelled from the spec: [OSSL_RV_OK] and [OSSL_RV_ERR] are macros of
    common.h, which is not among the sources; their values are those the
    comment above [ossl_ecdsa_signature] gives ("1 for success, otherwise
    0"), and 0 is what [ECDSA_SIG_set0] returns when it fails. *)
Definition OSSL_RV_OK : Z := 1.
Definition OSSL_RV_ERR : Z := 0.

(** What a call leaves behind: the return value, the buffer behind [sig]
    (None when [sig] is NULL), the value behind [siglen], and the calls made
    into libcrypto. *)
Record codec_result := {
  rc : Z;
  sig_out : option (list byte);
  siglen_out : Z;
  calls : list libcrypto_call
}.

(** The calls made up to each exit that follows [ECDSA_SIG_new]. *)
Definition calls_built : list libcrypto_call :=
  [Call_ECDSA_SIG_new; Call_BN_bin2bn; Call_BN_bin2bn; Call_ECDSA_SIG_set0].

Definition calls_unset : list libcrypto_call :=
  calls_built ++ [Call_ECDSA_SIG_free].

Definition calls_sized : list libcrypto_call :=
  calls_built ++ [Call_i2d_ECDSA_SIG false; Call_ECDSA_SIG_free].

Definition calls_written : list libcrypto_call :=
  calls_built ++ [Call_i2d_ECDSA_SIG false; Call_i2d_ECDSA_SIG true;
                  Call_ECDSA_SIG_free].

Definition ossl_ecdsa_signature (lc : libcrypto)
    (raw_sig : option (list byte)) (raw_siglen : Z)
    (sig : option (list byte)) (siglen : Z) : outcome codec_result :=
  let leave rc calls :=
    Ret {| rc := rc; sig_out := sig; siglen_out := siglen; calls := calls |} in
  match raw_sig with
  | None => leave OSSL_RV_ERR []
  | Some raw =>
      if raw_siglen =? 0 then leave OSSL_RV_ERR []
      else if negb (ECDSA_SIG_new_ok lc)
      then leave OSSL_RV_ERR [Call_ECDSA_SIG_new]
      else
        match BN_bin2bn (BN_new_r_ok lc) raw 0 (raw_siglen / 2),
              BN_bin2bn (BN_new_s_ok lc) raw (raw_siglen / 2) (raw_siglen / 2)
        with
        | Ret r, Ret s =>
            (* rc != OSSL_RV_OK exactly when nothing was stored *)
            match ECDSA_SIG_set0 r s with
            | (rc, Some ec_sig) =>
                let derlen := i2d_ECDSA_SIG_size (i2d_size_ok lc) ec_sig in
                if derlen <=? 0 then leave OSSL_RV_ERR calls_sized
                else
                  match sig with
                  | None =>
                      Ret {| rc := rc; sig_out := None; siglen_out := derlen;
                             calls := calls_sized |}
                  | Some buf =>
                      if siglen <? derlen then leave OSSL_RV_ERR calls_sized
                      else
                        match i2d_ECDSA_SIG_write (i2d_write_stop lc)
                                                  ec_sig buf with
                        | Fault => Fault
                        | Ret (derlen', buf') =>
                            if derlen' <=? 0
                            then Ret {| rc := OSSL_RV_ERR;
                                        sig_out := Some buf';
                                        siglen_out := siglen;
                                        calls := calls_written |}
                            else Ret {| rc := rc;
                                        sig_out := Some buf';
                                        siglen_out := derlen';
                                        calls := calls_written |}
                        end
                  end
            | (rc, None) => leave rc calls_unset
            end
        | _, _ => Fault
        end
  end.

(** libcrypto with memory to spare. *)
Definition libcrypto_ok : libcrypto :=
  {| ECDSA_SIG_new_ok := true; BN_new_r_ok := true; BN_new_s_ok := true;
     i2d_size_ok := true; i2d_write_stop := None |}.

(** ** Sequences of resolutions, and inputs used below *)

(** Resolving a list of requests (algorithm name, function id) one after
    the other for one operation kind on one handle: the handle at the end
    and the backend calls of all of them. *)
Fixpoint resolve_all (f : ossl_provider) (operation_id : Z)
    (requests : list (string * Z)) : ossl_provider * list event :=
  match requests with
  | [] => (f, [])
  | (algorithm, fid) :: rest =>
      match fwd_get_func (Some f) operation_id (Some algorithm) fid with
      | Ret r =>
          match res_fwd r with
          | Some f' =>
              let '(f'', trace) := resolve_all f' operation_id rest in
              (f'', res_trace r ++ trace)
          | None => (f, res_trace r)
          end
      | Fault => (f, [])
      end
  end.

(** The query counter of a test double. *)
Fixpoint query_count (trace : list event) : nat :=
  match trace with
  | [] => 0
  | Query _ :: rest => S (query_count rest)
  | Unquery _ _ :: rest => query_count rest
  end.

Definition F : func_t := 1%positive.

(** A table of one descriptor, with function id 7 bound to [F]. *)
Definition table_of (names : string) : list OSSL_ALGORITHM :=
  [ {| algorithm_names := names;
       implementation := [ {| function_id := 7; function := F |} ] |} ].

(** A backend that answers every query alike. *)
Definition backend_of (t : option (list OSSL_ALGORITHM)) (no_cache : Z)
    : OSSL_PROVIDER :=
  {| query_operation := fun _ => (t, no_cache) |}.

(** A handle just loaded: nothing cached yet. *)
Definition loaded (prov : OSSL_PROVIDER) : ossl_provider :=
  {| provider := Some prov; alg_cache := ∅ |}.

(** A handle whose signature slot already holds a table. *)
Definition cached_handle : ossl_provider :=
  {| provider := Some (backend_of (Some (table_of "RSA")) 0);
     alg_cache := {[ OSSL_OP_SIGNATURE := table_of "ECDSA" ]} |}.

Definition EVP_PKEY_DSA : Z := 116.

(** The scalar pair the codec reads from a raw signature: the first
    [raw_siglen / 2] bytes and the [raw_siglen / 2] bytes after them. *)
Definition raw_pair (raw : list byte) (raw_siglen : Z) : ECDSA_SIG :=
  let h := Z.to_nat (raw_siglen / 2) in
  {| sig_r := be_value (take h raw);
     sig_s := be_value (take h (drop h raw)) |}.

Definition raw3 : list byte := [Byte.x01; Byte.x02; Byte.x03].

Definition raw4 : list byte := [Byte.x80; Byte.x00; Byte.xff; Byte.x01].

(** DER of SEQUENCE { INTEGER 0x8000, INTEGER 0xff01 }. *)
Definition der4 : list byte :=
  [Byte.x30; Byte.x0a; Byte.x02; Byte.x03; Byte.x00; Byte.x80; Byte.x00;
   Byte.x02; Byte.x03; Byte.x00; Byte.xff; Byte.x01].

(** DER of SEQUENCE { INTEGER 1, INTEGER 2 }. *)
Definition der3 : list byte :=
  [Byte.x30; Byte.x06; Byte.x02; Byte.x01; Byte.x01; Byte.x02; Byte.x01;
   Byte.x02].

(** * The rest of ossl.c *)

(** ** ossl_parse_padding

    The padding names are the string macros of openssl/core_names.h, the
    padding modes the macros of openssl/rsa.h.  [strcmp(a, b) == 0] is
    equality of the two strings; a NULL argument is a fault. *)

Definition OSSL_PKEY_RSA_PAD_MODE_NONE : string := "none".
Definition OSSL_PKEY_RSA_PAD_MODE_PKCSV15 : string := "pkcs1".
Definition OSSL_PKEY_RSA_PAD_MODE_OAEP : string := "oaep".
Definition OSSL_PKEY_RSA_PAD_MODE_X931 : string := "x931".
Definition OSSL_PKEY_RSA_PAD_MODE_PSS : string := "pss".

Definition RSA_PKCS1_PADDING : Z := 1.
Definition RSA_NO_PADDING : Z := 3.
Definition RSA_PKCS1_OAEP_PADDING : Z := 4.
Definition RSA_X931_PADDING : Z := 5.
Definition RSA_PKCS1_PSS_PADDING : Z := 6.

Definition ossl_parse_padding (padding : option string) : outcome Z :=
  match padding with
  | None => Fault
  | Some padding =>
      Ret (if String.eqb padding OSSL_PKEY_RSA_PAD_MODE_NONE
           then RSA_NO_PADDING
           else if String.eqb padding OSSL_PKEY_RSA_PAD_MODE_PKCSV15
           then RSA_PKCS1_PADDING
           else if String.eqb padding OSSL_PKEY_RSA_PAD_MODE_OAEP
           then RSA_PKCS1_OAEP_PADDING
           else if String.eqb padding OSSL_PKEY_RSA_PAD_MODE_X931
           then RSA_X931_PADDING
           else if String.eqb padding OSSL_PKEY_RSA_PAD_MODE_PSS
           then RSA_PKCS1_PSS_PADDING
           else -1)
  end.

(** The five names, for the statements below. *)
Definition padding_names : list string :=
  [OSSL_PKEY_RSA_PAD_MODE_NONE; OSSL_PKEY_RSA_PAD_MODE_PKCSV15;
   OSSL_PKEY_RSA_PAD_MODE_OAEP; OSSL_PKEY_RSA_PAD_MODE_X931;
   OSSL_PKEY_RSA_PAD_MODE_PSS].

(** ** The execution context: core_init, core_teardown, ossl_put_error *)

(** Function ids of the host's dispatch table (openssl/core_dispatch.h). *)
Definition OSSL_FUNC_CORE_GET_PARAMS : Z := 2.
Definition OSSL_FUNC_CORE_NEW_ERROR : Z := 5.
Definition OSSL_FUNC_CORE_SET_ERROR_DEBUG : Z := 6.
Definition OSSL_FUNC_CORE_VSET_ERROR : Z := 7.

(** Modelled from the spec: [struct ossl_core] is declared in common.h,
    which is not among the sources ("a child library context ... and a set
    of resolved host callback references").  The fields are those ossl.c
    names: [core->handle], [core->libctx] and the four members of
    [core->fns].  Pointers are options, NULL being [None]. *)
Record core_fns := {
  get_params : option func_t;
  set_error_debug : option func_t;
  vset_error : option func_t;
  new_error : option func_t
}.

Record ossl_core := {
  handle : option Z;
  libctx : option Z;
  fns : core_fns
}.

(** Calls that leave the execution-context code, in program order: into
    libcrypto for the child context, into the host through the stored
    callbacks. *)
Inductive core_event :=
| Lib_ctx_new_child (hnd : option Z) (table : list OSSL_DISPATCH)
| Lib_ctx_free (ctx : Z)
| Host_new_error (fn : func_t) (hnd : option Z)
| Host_set_error_debug (fn : func_t) (hnd : option Z)
                       (file : string) (line : Z) (func : string)
| Host_vset_error (fn : func_t) (hnd : option Z)
                  (err : Z) (fmt : string) (args : list Z).

(** [ossl_put_error]: returns nothing and writes nothing; what remains are
    the calls it makes.  The variadic arguments are the list [args]. *)
Definition ossl_put_error (core : option ossl_core) (err : Z)
    (file : string) (line : Z) (func : string)
    (fmt : string) (args : list Z) : list core_event :=
  match core with
  | None => []
  | Some c =>
      (match new_error (fns c) with
       | Some fn => [Host_new_error fn (handle c)]
       | None => []
       end)
      ++ (match set_error_debug (fns c) with
          | Some fn => [Host_set_error_debug fn (handle c) file line func]
          | None => []
          end)
      ++ (match vset_error (fns c) with
          | Some fn => [Host_vset_error fn (handle c) err fmt args]
          | None => []
          end)
  end.

Definition no_fns : core_fns :=
  {| get_params := None; set_error_debug := None; vset_error := None;
     new_error := None |}.

Definition core_teardown (core : option ossl_core)
    : option ossl_core * list core_event :=
  match core with
  | None => (None, [])
  | Some c =>
      (Some {| handle := None; libctx := None; fns := no_fns |},
       match libctx c with
       | Some ctx => [Lib_ctx_free ctx]
       | None => []
       end)
  end.

(** The body of the [switch] in [core_init], for one table entry. *)
Definition core_init_store (d : OSSL_DISPATCH) (f : core_fns) : core_fns :=
  if function_id d =? OSSL_FUNC_CORE_GET_PARAMS then
    {| get_params := Some (function d);
       set_error_debug := set_error_debug f;
       vset_error := vset_error f; new_error := new_error f |}
  else if function_id d =? OSSL_FUNC_CORE_NEW_ERROR then
    {| get_params := get_params f;
       set_error_debug := set_error_debug f;
       vset_error := vset_error f; new_error := Some (function d) |}
  else if function_id d =? OSSL_FUNC_CORE_SET_ERROR_DEBUG then
    {| get_params := get_params f;
       set_error_debug := Some (function d);
       vset_error := vset_error f; new_error := new_error f |}
  else if function_id d =? OSSL_FUNC_CORE_VSET_ERROR then
    {| get_params := get_params f;
       set_error_debug := set_error_debug f;
       vset_error := Some (function d); new_error := new_error f |}
  else f.

(** The [for] loop of [core_init]: up to the entry whose id is 0. *)
Fixpoint core_init_scan (table : list OSSL_DISPATCH) (f : core_fns)
    : core_fns :=
  match table with
  | [] => f
  | d :: rest =>
      if function_id d =? 0 then f
      else core_init_scan rest (core_init_store d f)
  end.

(** [core_init].  [new_child] is what [OSSL_LIB_CTX_new_child(handle, in)]
    returns; [core] is dereferenced without a check. *)
Definition core_init (new_child : option Z) (core : option ossl_core)
    (hnd : option Z) (table : list OSSL_DISPATCH)
    : outcome (Z * ossl_core * list core_event) :=
  match core with
  | None => Fault
  | Some c =>
      match new_child with
      | None =>
          Ret (OSSL_RV_ERR,
               {| handle := handle c; libctx := None; fns := fns c |},
               [Lib_ctx_new_child hnd table])
      | Some ctx =>
          Ret (OSSL_RV_OK,
               {| handle := hnd; libctx := Some ctx;
                  fns := core_init_scan table (fns c) |},
               [Lib_ctx_new_child hnd table])
      end
  end.

(** The entries of a dispatch table that precede its terminator, and the
    function the last of them with a given id carries. *)
Fixpoint live_entries (table : list OSSL_DISPATCH) : list OSSL_DISPATCH :=
  match table with
  | [] => []
  | d :: rest => if function_id d =? 0 then [] else d :: live_entries rest
  end.

Fixpoint last_with_id (entries : list OSSL_DISPATCH) (id : Z)
    : option func_t :=
  match entries with
  | [] => None
  | d :: rest =>
      match last_with_id rest id with
      | Some fn => Some fn
      | None => if function_id d =? id then Some (function d) else None
      end
  end.

(** What the loop leaves in a callback slot: the function of the last live
    entry with the slot's id, or what was there before. *)
Definition slot_after (table : list OSSL_DISPATCH) (id : Z)
    (before : option func_t) : option func_t :=
  match last_with_id (live_entries table) id with
  | Some fn => Some fn
  | None => before
  end.

(** ** The backend handle: fwd_init, fwd_teardown *)

(** Modelled from the spec: the two members of [struct ossl_provider]
    (common.h, not among the sources) that the resolver does not read,
    [fwd->ctx] and [fwd->name], beside the part it reads. *)
Record fwd_handle := {
  fwd_base : ossl_provider;
  fwd_ctx : option Z;
  fwd_name : option string
}.

(** What libcrypto answers when a backend is loaded by name into a library
    context, and the context pointer a loaded backend hands out. *)
Record provider_env := {
  OSSL_PROVIDER_load : Z -> string -> option OSSL_PROVIDER;
  OSSL_PROVIDER_get0_provider_ctx : OSSL_PROVIDER -> option Z
}.

Inductive lifecycle_event :=
| Provider_load (lib : Z) (name : string)
| Provider_get0_ctx
| Provider_unload (prov : OSSL_PROVIDER).

Fixpoint unload_count (trace : list lifecycle_event) : nat :=
  match trace with
  | [] => 0
  | Provider_unload _ :: rest => S (unload_count rest)
  | _ :: rest => unload_count rest
  end.

Definition fwd_teardown (fwd : option fwd_handle)
    : option fwd_handle * list lifecycle_event :=
  match fwd with
  | None => (None, [])
  | Some h =>
      (Some {| fwd_base := {| provider := None;
                              alg_cache := alg_cache (fwd_base h) |};
               fwd_ctx := None;
               fwd_name := fwd_name h |},
       match provider (fwd_base h) with
       | Some prov => [Provider_unload prov]
       | None => []
       end)
  end.

(** [fwd_init]; its parameters [handle] and [in] are not used. *)
Definition fwd_init (env : provider_env) (fwd : option fwd_handle)
    (name : option string) (lib : option Z) (dbg : option Z)
    : Z * option fwd_handle * list lifecycle_event :=
  match fwd, name, lib, dbg with
  | Some h, Some name, Some lib, Some _ =>
      let loaded_prov := OSSL_PROVIDER_load env lib name in
      let h1 := {| fwd_base := {| provider := loaded_prov;
                                  alg_cache := alg_cache (fwd_base h) |};
                   fwd_ctx := fwd_ctx h;
                   fwd_name := fwd_name h |} in
      match loaded_prov with
      | None =>
          let '(h2, tr) := fwd_teardown (Some h1) in
          (OSSL_RV_ERR, h2, Provider_load lib name :: tr)
      | Some prov =>
          match OSSL_PROVIDER_get0_provider_ctx env prov with
          | None =>
              let '(h2, tr) :=
                fwd_teardown
                  (Some {| fwd_base := fwd_base h1; fwd_ctx := None;
                           fwd_name := fwd_name h1 |}) in
              (OSSL_RV_ERR, h2,
               Provider_load lib name :: Provider_get0_ctx :: tr)
          | Some ctx =>
              (OSSL_RV_OK,
               Some {| fwd_base := fwd_base h1; fwd_ctx := Some ctx;
                       fwd_name := Some name |},
               [Provider_load lib name; Provider_get0_ctx])
          end
      end
  | _, _, _, _ => (OSSL_RV_ERR, fwd, [])
  end.

(** The function references a run of resolutions returns, one per
    request. *)
Fixpoint resolve_funcs (f : ossl_provider) (operation_id : Z)
    (requests : list (string * Z)) : list (option func_t) :=
  match requests with
  | [] => []
  | (algorithm, fid) :: rest =>
      match fwd_get_func (Some f) operation_id (Some algorithm) fid with
      | Ret r =>
          res_func r ::
          match res_fwd r with
          | Some f' => resolve_funcs f' operation_id rest
          | None => []
          end
      | Fault => []
      end
  end.

(** A dispatch table of the host with the three error callbacks and an
    entry after the terminator, and a context that was never set up. *)
Definition host_table : list OSSL_DISPATCH :=
  [ {| function_id := OSSL_FUNC_CORE_NEW_ERROR; function := 11%positive |};
    {| function_id := 99; function := 12%positive |};
    {| function_id := OSSL_FUNC_CORE_VSET_ERROR; function := 13%positive |};
    {| function_id := OSSL_FUNC_CORE_NEW_ERROR; function := 14%positive |};
    {| function_id := 0; function := 15%positive |};
    {| function_id := OSSL_FUNC_CORE_SET_ERROR_DEBUG;
       function := 16%positive |} ].

Definition blank_core : ossl_core :=
  {| handle := None; libctx := None; fns := no_fns |}.

(** A libcrypto in which only the backend "default" loads. *)
Definition env_default : provider_env :=
  {| OSSL_PROVIDER_load :=
       fun _ name =>
         if String.eqb name "default"
         then Some (backend_of (Some (table_of "RSA")) 0)
         else None;
     OSSL_PROVIDER_get0_provider_ctx := fun _ => Some 1 |}.

Definition blank_handle : fwd_handle :=
  {| fwd_base := {| provider := None; alg_cache := ∅ |};
     fwd_ctx := None; fwd_name := None |}.

(** A handle in use, with a signature table cached, and the same handle
    after it was torn down and initialised again with "default". *)
Definition used_handle : fwd_handle :=
  {| fwd_base := cached_handle; fwd_ctx := Some 7;
     fwd_name := Some "legacy"%string |}.

Definition reloaded_handle : fwd_handle :=
  {| fwd_base := {| provider := Some (backend_of (Some (table_of "RSA")) 0);
                    alg_cache := alg_cache cached_handle |};
     fwd_ctx := Some 1; fwd_name := Some "default"%string |}.

(** Two descriptors that both answer to "EC"; only the second binds the
    function id 8. *)
Definition shadowing_table : list OSSL_ALGORITHM :=
  [ {| algorithm_names := "EC:id-ecPublicKey";
       implementation := [ {| function_id := 7; function := F |} ] |};
    {| algorithm_names := "EC";
       implementation := [ {| function_id := 8; function := 2%positive |} ] |} ].

Definition shadowing_handle : ossl_provider :=
  {| provider := Some (backend_of None 0);
     alg_cache := {[ OSSL_OP_KEYMGMT := shadowing_table ]} |}.

(** * Properties of the resolver *)

Section AliasMatching.

Lemma chr_eq_ci_refl a : chr_eq_ci a a = true.
Proof. unfold chr_eq_ci. apply Ascii.eqb_refl. Qed.

Lemma chr_eq_ci_trans a b c :
  chr_eq_ci a b = true -> chr_eq_ci b c = chr_eq_ci a c.
Proof.
  unfold chr_eq_ci. intros H. apply Ascii.eqb_eq in H. now rewrite H.
Qed.

Lemma eq_ci_strlen s : forall t, eq_ci s t = true -> strlen s = strlen t.
Proof.
  induction s as [|a s IH]; intros [|b t]; simpl; try discriminate; trivial.
  intros H. apply andb_true_iff in H as [_ H]. f_equal. now apply IH.
Qed.

Lemma prefix_ci_eq_ci s : forall t h,
  eq_ci s t = true -> prefix_ci s h = prefix_ci t h.
Proof.
  induction s as [|a s IH]; intros [|b t] h; simpl; try discriminate; trivial.
  intros H. apply andb_true_iff in H as [Hc H].
  destruct h as [|c h]; trivial.
  rewrite (IH t h H). f_equal.
  unfold chr_eq_ci in *. apply Ascii.eqb_eq in Hc. now rewrite Hc.
Qed.

Lemma strcasestr_eq_ci names : forall s t,
  eq_ci s t = true -> strcasestr names s = strcasestr names t.
Proof.
  induction names as [|c names IH]; intros s t H; simpl;
    rewrite (prefix_ci_eq_ci s t _ H); trivial.
  now rewrite (IH s t H).
Qed.

(** The outcome of the test on one descriptor does not depend on the
    letter case of the requested name. *)
Lemma entry_matches_eq_ci names s t :
  eq_ci s t = true -> entry_matches names s = entry_matches names t.
Proof.
  intros H. unfold entry_matches.
  now rewrite (strcasestr_eq_ci names s t H), (eq_ci_strlen s t H).
Qed.

Lemma scan_algorithms_eq_ci algs s t fid :
  eq_ci s t = true -> scan_algorithms algs s fid = scan_algorithms algs t fid.
Proof.
  intros H. induction algs as [|a algs IH]; simpl; trivial.
  now rewrite (entry_matches_eq_ci _ s t H), IH.
Qed.

(** What [strcasestr] returns is an occurrence inside the haystack. *)
Lemma strcasestr_occurrence names : forall name i,
  strcasestr names name = Some i ->
  prefix_ci name (string_drop i names) = true
  /\ (i <= String.length names)%nat.
Proof.
  induction names as [|c names IH]; intros name i; simpl.
  - destruct (prefix_ci name "") eqn:E; [|discriminate].
    intros [= <-]. simpl. split; [exact E | lia].
  - destruct (prefix_ci name (String c names)) eqn:E.
    + intros [= <-]. simpl. split; [exact E | lia].
    + destruct (strcasestr names name) as [j|] eqn:Ej; simpl; [|discriminate].
      intros [= <-]. destruct (IH name j Ej) as [Hp Hl].
      simpl. split; [exact Hp | lia].
Qed.

(** Soundness of the test: a descriptor the code accepts does hold the
    name as a whole alias. *)
Lemma entry_matches_sound names name :
  entry_matches names name = true ->
  occurs_as_whole_alias names name = true.
Proof.
  unfold entry_matches, occurs_as_whole_alias.
  destruct (strcasestr names name) as [i|] eqn:Ei; [|discriminate].
  destruct (strcasestr_occurrence _ _ _ Ei) as [Hp Hl].
  intros H. apply existsb_exists. exists i. split.
  - apply in_seq. lia.
  - unfold bounded_occurrence_at. rewrite Hp. simpl.
    destruct (is_nul (char_at names (i + strlen name)));
      destruct (is_colon (char_at names (i + strlen name)));
      destruct (i =? 0)%nat;
      destruct (is_colon (char_at names (i - 1)));
      simpl in *; congruence.
Qed.

(** The test looks at the first occurrence only. *)
Lemma entry_matches_first_occurrence names name :
  entry_matches names name = true <->
  exists i, strcasestr names name = Some i
            /\ bounded_occurrence_at names name i = true.
Proof.
  unfold entry_matches. split.
  - destruct (strcasestr names name) as [i|] eqn:Ei; [|discriminate].
    destruct (strcasestr_occurrence _ _ _ Ei) as [Hp _].
    intros H. exists i. split; trivial.
    unfold bounded_occurrence_at. rewrite Hp. simpl.
    destruct (is_nul (char_at names (i + strlen name)));
      destruct (is_colon (char_at names (i + strlen name)));
      destruct (i =? 0)%nat;
      destruct (is_colon (char_at names (i - 1)));
      simpl in *; congruence.
  - intros (i & -> & H). unfold bounded_occurrence_at in H.
    apply andb_true_iff in H as [H Hr].
    apply andb_true_iff in H as [_ Hl].
    destruct (is_nul (char_at names (i + strlen name)));
      destruct (is_colon (char_at names (i + strlen name)));
      destruct (i =? 0)%nat;
      destruct (is_colon (char_at names (i - 1)));
      simpl in *; congruence.
Qed.

(** The examples of the specification. *)
Example match_B_in_A_B_C : entry_matches "A:B:C" "B" = true.
Proof. reflexivity. Qed.

Example no_match_AB_in_A_B : entry_matches "A:B" "AB" = false.
Proof. reflexivity. Qed.

Example match_A_B_in_A_B_C : entry_matches "A:B:C" "A:B" = true.
Proof. reflexivity. Qed.

End AliasMatching.

Section Resolver.

#[local] Arguments fwd_get_func : simpl never.

Lemma fwd_get_algo_unrecognized pkey_type sign :
  pkey_type <> EVP_PKEY_RSA -> pkey_type <> EVP_PKEY_RSA_PSS ->
  pkey_type <> EVP_PKEY_EC ->
  fwd_get_algo pkey_type sign = None.
Proof.
  intros H1 H2 H3. unfold fwd_get_algo.
  destruct (Z.eqb_spec pkey_type EVP_PKEY_RSA); [contradiction|].
  destruct (Z.eqb_spec pkey_type EVP_PKEY_RSA_PSS); [contradiction|].
  destruct (Z.eqb_spec pkey_type EVP_PKEY_EC); [contradiction|].
  reflexivity.
Qed.

(** A NULL algorithm name never gets past the declarations. *)
Lemma fwd_get_func_null_algorithm fwd operation_id fid :
  fwd_get_func fwd operation_id None fid = Fault.
Proof. reflexivity. Qed.

Lemma typed_wrappers_unrecognized fwd pkey_type fid :
  pkey_type <> EVP_PKEY_RSA -> pkey_type <> EVP_PKEY_RSA_PSS ->
  pkey_type <> EVP_PKEY_EC ->
  fwd_keymgmt_get_func fwd pkey_type fid = Fault
  /\ fwd_asym_get_func fwd pkey_type fid = Fault
  /\ fwd_sign_get_func fwd pkey_type fid = Fault.
Proof.
  intros H1 H2 H3.
  unfold fwd_keymgmt_get_func, fwd_asym_get_func, fwd_sign_get_func.
  now rewrite !fwd_get_algo_unrecognized.
Qed.

(** With a name at hand, a NULL or unloaded handle and an operation id out
    of range give NULL, touch nothing and call nothing. *)
Lemma fwd_get_func_rejects fwd operation_id algorithm fid :
  fwd = None
  \/ (exists f, fwd = Some f /\ provider f = None)
  \/ operation_id <= 0
  \/ OSSL_OP__HIGHEST < operation_id ->
  fwd_get_func fwd operation_id (Some algorithm) fid
  = Ret {| res_func := None; res_fwd := fwd; res_trace := [] |}.
Proof.
  intros H. unfold fwd_get_func.
  destruct fwd as [f|]; trivial.
  destruct (provider f) as [prov|] eqn:Ep; trivial.
  destruct H as [H|[(f' & [= <-] & H)|H]]; try congruence.
  destruct (Z.leb_spec operation_id 0); trivial.
  destruct (Z.ltb_spec OSSL_OP__HIGHEST operation_id); trivial.
  lia.
Qed.

Lemma in_range_test operation_id :
  0 < operation_id <= OSSL_OP__HIGHEST ->
  (operation_id <=? 0) || (OSSL_OP__HIGHEST <? operation_id) = false.
Proof.
  intros H.
  destruct (Z.leb_spec operation_id 0); [lia|].
  destruct (Z.ltb_spec OSSL_OP__HIGHEST operation_id); [lia|].
  reflexivity.
Qed.

(** A call that finds the slot empty: one query, a release of whatever
    non-NULL table came back, and a store when [no_cache] was left 0. *)
Lemma fwd_get_func_fresh f prov operation_id algorithm fid t no_cache :
  provider f = Some prov ->
  0 < operation_id <= OSSL_OP__HIGHEST ->
  alg_cache f !! operation_id = None ->
  query_operation prov operation_id = (t, no_cache) ->
  fwd_get_func (Some f) operation_id (Some algorithm) fid
  = Ret {| res_func := match t with
                       | Some algs => scan_algorithms algs algorithm fid
                       | None => None
                       end;
           res_fwd := Some {| provider := Some prov;
                              alg_cache :=
                                match t with
                                | Some algs =>
                                    if no_cache =? 0
                                    then <[operation_id := algs]> (alg_cache f)
                                    else alg_cache f
                                | None => alg_cache f
                                end |};
           res_trace := Query operation_id ::
                        match t with
                        | Some algs => [Unquery operation_id algs]
                        | None => []
                        end |}.
Proof.
  intros Hp Hop Hc Hq. unfold fwd_get_func.
  rewrite Hp, (in_range_test _ Hop), Hc, Hq. simpl.
  destruct t as [algs|]; destruct (no_cache =? 0); reflexivity.
Qed.

(** A call that finds a table in the slot: no backend call, no change. *)
Lemma fwd_get_func_cached f prov operation_id algorithm fid algs :
  provider f = Some prov ->
  0 < operation_id <= OSSL_OP__HIGHEST ->
  alg_cache f !! operation_id = Some algs ->
  fwd_get_func (Some f) operation_id (Some algorithm) fid
  = Ret {| res_func := scan_algorithms algs algorithm fid;
           res_fwd := Some f;
           res_trace := [] |}.
Proof.
  intros Hp Hop Hc. unfold fwd_get_func.
  rewrite Hp, (in_range_test _ Hop), Hc. simpl.
  destruct f as [p c]. simpl in *. now subst.
Qed.

(** No call empties or replaces a slot that holds a table. *)
Lemma fwd_get_func_keeps_slot f operation_id algs op' algorithm fid r :
  alg_cache f !! operation_id = Some algs ->
  fwd_get_func (Some f) op' algorithm fid = Ret r ->
  exists f', res_fwd r = Some f'
             /\ provider f' = provider f
             /\ alg_cache f' !! operation_id = Some algs.
Proof.
  intros Hc. unfold fwd_get_func.
  destruct algorithm as [a|]; [|discriminate].
  destruct (provider f) as [prov|] eqn:Ep.
  2:{ intros [= <-]. simpl. eauto. }
  destruct ((op' <=? 0) || (OSSL_OP__HIGHEST <? op')).
  { intros [= <-]. simpl. exists f. auto. }
  destruct (alg_cache f !! op') as [t|] eqn:Ec'.
  - intros [= <-]. simpl. eexists. split; [reflexivity|]. simpl. auto.
  - destruct (query_operation prov op') as [t nc]. simpl.
    intros [= <-]. simpl. eexists. split; [reflexivity|]. simpl.
    split; trivial.
    destruct (nc =? 0); simpl; trivial.
    destruct t as [t|]; trivial.
    rewrite lookup_insert_ne; trivial. congruence.
Qed.

(** Once the slot holds a table, further resolutions are silent. *)
Lemma resolve_all_cached f prov operation_id algs requests :
  provider f = Some prov ->
  0 < operation_id <= OSSL_OP__HIGHEST ->
  alg_cache f !! operation_id = Some algs ->
  resolve_all f operation_id requests = (f, []).
Proof.
  intros Hp Hop Hc. induction requests as [|[a fid] rest IH]; simpl; trivial.
  rewrite (fwd_get_func_cached f prov operation_id a fid algs Hp Hop Hc).
  simpl. now rewrite IH.
Qed.

(** A backend that forbids caching is asked every time. *)
Lemma resolve_all_not_cacheable f prov operation_id t no_cache requests :
  provider f = Some prov ->
  0 < operation_id <= OSSL_OP__HIGHEST ->
  alg_cache f !! operation_id = None ->
  query_operation prov operation_id = (t, no_cache) ->
  no_cache <> 0 ->
  query_count (resolve_all f operation_id requests).2 = length requests
  /\ (resolve_all f operation_id requests).1 = f.
Proof.
  intros Hp Hop Hc Hq Hnc.
  assert (Ef : {| provider := Some prov; alg_cache := alg_cache f |} = f).
  { destruct f as [p c]. simpl in *. now subst. }
  induction requests as [|[a fid] rest [IHn IHf]]; simpl; [auto|].
  rewrite (fwd_get_func_fresh f prov operation_id a fid t no_cache Hp Hop Hc Hq).
  simpl. apply Z.eqb_neq in Hnc. rewrite Hnc.
  replace (match t with Some _ | _ => alg_cache f end) with (alg_cache f)
    by now destruct t.
  rewrite Ef.
  destruct (resolve_all f operation_id rest) as [f'' tr] eqn:E. simpl in *.
  split; [|exact IHf].
  destruct t; simpl; now rewrite IHn.
Qed.

(** A non-NULL table that may be cached is asked for once. *)
Lemma resolve_all_cacheable f prov operation_id algs a fid requests :
  provider f = Some prov ->
  0 < operation_id <= OSSL_OP__HIGHEST ->
  alg_cache f !! operation_id = None ->
  query_operation prov operation_id = (Some algs, 0) ->
  query_count (resolve_all f operation_id ((a, fid) :: requests)).2 = 1%nat
  /\ alg_cache (resolve_all f operation_id ((a, fid) :: requests)).1
       !! operation_id = Some algs
  /\ provider (resolve_all f operation_id ((a, fid) :: requests)).1
     = Some prov.
Proof.
  intros Hp Hop Hc Hq. simpl.
  rewrite (fwd_get_func_fresh f prov operation_id a fid _ 0 Hp Hop Hc Hq).
  simpl.
  rewrite (resolve_all_cached _ prov operation_id algs requests); simpl;
    try apply lookup_insert_eq; auto.
  repeat split. apply lookup_insert_eq.
Qed.

End Resolver.

(** ** The claims about the resolver *)

(** C1.  The claim: a descriptor is selected exactly when the name is a
    whole alias of its list.  On the list "AB:B" the name "B" is a whole
    alias (the second one), yet the code looks only at the first place
    where "B" occurs, inside "AB", finds no colon before it and moves on to
    the next descriptor: the function bound to that descriptor is not
    returned.  With the same two aliases in the other order, "B:AB", the
    descriptor is selected. *)
Theorem C1_whole_alias_after_longer_alias_not_selected :
  occurs_as_whole_alias "AB:B" "B" = true
  /\ In "B"%string (aliases "AB:B")
  /\ entry_matches "B:AB" "B" = true
  /\ entry_matches "AB:B" "B" = false
  /\ selected_entry (table_of "AB:B") "B" = None
  /\ fwd_get_func (Some (loaded (backend_of (Some (table_of "AB:B")) 1)))
                  OSSL_OP_SIGNATURE (Some "B"%string) 7
     = Ret {| res_func := None;
              res_fwd := Some (loaded (backend_of (Some (table_of "AB:B")) 1));
              res_trace := [Query OSSL_OP_SIGNATURE;
                            Unquery OSSL_OP_SIGNATURE (table_of "AB:B")] |}.
Proof.
  repeat split; try reflexivity. simpl. auto.
Qed.

(** C9.  The claim: a name that differs from a whole alias only in letter
    case matches the descriptor.  "ec" differs from the alias "EC" of the
    list "XEC:EC" only in case, and is not matched, for the reason given
    at C1: the first occurrence, inside "XEC", is the only one tried. *)
Theorem C9_case_variant_after_longer_alias_not_selected :
  In "EC"%string (aliases "XEC:EC")
  /\ eq_ci "ec" "EC" = true
  /\ entry_matches "XEC:EC" "EC" = false
  /\ entry_matches "XEC:EC" "ec" = false
  /\ fwd_get_func (Some (loaded (backend_of (Some (table_of "XEC:EC")) 1)))
                  OSSL_OP_KEYMGMT (Some "ec"%string) 7
     = Ret {| res_func := None;
              res_fwd := Some (loaded (backend_of (Some (table_of "XEC:EC")) 1));
              res_trace := [Query OSSL_OP_KEYMGMT;
                            Unquery OSSL_OP_KEYMGMT (table_of "XEC:EC")] |}.
Proof.
  repeat split; try reflexivity. simpl. auto.
Qed.

(** C3.  The claim: a typed wrapper called with an unrecognized key type
    returns a NULL function reference without failing.  [fwd_get_algo]
    does return NULL for the key type DSA, but [fwd_get_func] takes
    [strlen] of that NULL in its declarations, before it validates
    anything: the call faults, on a loaded handle as on a NULL one. *)
Theorem C3_unrecognized_key_type_faults :
  fwd_get_algo EVP_PKEY_DSA false = None
  /\ fwd_get_algo EVP_PKEY_DSA true = None
  /\ fwd_keymgmt_get_func
       (Some (loaded (backend_of (Some (table_of "RSA")) 0))) EVP_PKEY_DSA 7
     = Fault
  /\ fwd_asym_get_func
       (Some (loaded (backend_of (Some (table_of "RSA")) 0))) EVP_PKEY_DSA 7
     = Fault
  /\ fwd_sign_get_func
       (Some (loaded (backend_of (Some (table_of "RSA")) 0))) EVP_PKEY_DSA 7
     = Fault
  /\ fwd_sign_get_func None EVP_PKEY_DSA 7 = Fault.
Proof. repeat split; reflexivity. Qed.

(** C2, as stated, fails: the backend allows caching (it leaves [no_cache]
    at 0), and the freshly queried table is released all the same; the
    released table is what the slot then holds. *)
Lemma C2_released_although_cacheable :
  query_operation (backend_of (Some (table_of "ECDSA")) 0) OSSL_OP_SIGNATURE
  = (Some (table_of "ECDSA"), 0)
  /\ exists r f',
       fwd_get_func (Some (loaded (backend_of (Some (table_of "ECDSA")) 0)))
                    OSSL_OP_SIGNATURE (Some "ECDSA"%string) 7 = Ret r
       /\ res_func r = Some F
       /\ In (Unquery OSSL_OP_SIGNATURE (table_of "ECDSA")) (res_trace r)
       /\ res_fwd r = Some f'
       /\ alg_cache f' !! OSSL_OP_SIGNATURE = Some (table_of "ECDSA").
Proof.
  split; [reflexivity|]. eexists. eexists.
  split; [reflexivity|]. simpl. repeat split; auto.
Qed.

(** C2, amended.  A call that queries the backend afresh and gets a
    non-NULL table releases it after use whether or not caching is
    allowed; the slot of the operation kind holds that table afterwards
    when caching is allowed and stays empty otherwise, and no other slot
    changes. *)
Theorem C2_fresh_table_released_then_cached_if_allowed
    f prov operation_id algorithm fid algs no_cache :
  provider f = Some prov ->
  0 < operation_id <= OSSL_OP__HIGHEST ->
  alg_cache f !! operation_id = None ->
  query_operation prov operation_id = (Some algs, no_cache) ->
  exists f',
    fwd_get_func (Some f) operation_id (Some algorithm) fid
    = Ret {| res_func := scan_algorithms algs algorithm fid;
             res_fwd := Some f';
             res_trace := [Query operation_id; Unquery operation_id algs] |}
    /\ provider f' = Some prov
    /\ alg_cache f' !! operation_id
       = (if no_cache =? 0 then Some algs else None)
    /\ forall op', op' <> operation_id ->
                   alg_cache f' !! op' = alg_cache f !! op'.
Proof.
  intros Hp Hop Hc Hq.
  rewrite (fwd_get_func_fresh f prov operation_id algorithm fid _ _
             Hp Hop Hc Hq).
  eexists. split; [reflexivity|]. simpl. split; [reflexivity|].
  destruct (no_cache =? 0).
  - split; [apply lookup_insert_eq|].
    intros op' Hne. now apply lookup_insert_ne.
  - split; [exact Hc|]. reflexivity.
Qed.

Lemma C2_fresh_table_released_then_cached_if_allowed_witness :
  exists f',
    fwd_get_func (Some (loaded (backend_of (Some (table_of "A:B:C")) 1)))
                 OSSL_OP_KEYEXCH (Some "B"%string) 7
    = Ret {| res_func := scan_algorithms (table_of "A:B:C") "B" 7;
             res_fwd := Some f';
             res_trace := [Query OSSL_OP_KEYEXCH;
                           Unquery OSSL_OP_KEYEXCH (table_of "A:B:C")] |}
    /\ provider f' = Some (backend_of (Some (table_of "A:B:C")) 1)
    /\ alg_cache f' !! OSSL_OP_KEYEXCH = (if 1 =? 0 then Some (table_of "A:B:C") else None)
    /\ forall op', op' <> OSSL_OP_KEYEXCH ->
                   alg_cache f' !! op'
                   = alg_cache (loaded (backend_of (Some (table_of "A:B:C")) 1))
                       !! op'.
Proof.
  apply (C2_fresh_table_released_then_cached_if_allowed
           (loaded (backend_of (Some (table_of "A:B:C")) 1))
           (backend_of (Some (table_of "A:B:C")) 1)
           OSSL_OP_KEYEXCH "B" 7 (table_of "A:B:C") 1).
  - reflexivity.
  - unfold OSSL_OP_KEYEXCH, OSSL_OP__HIGHEST. lia.
  - reflexivity.
  - reflexivity.
Defined.

(** C4, as stated, fails: the backend answers NULL (no table for this
    operation kind) and leaves [no_cache] at 0; nothing can be kept, and
    the second resolution asks the backend again. *)
Lemma C4_null_table_queried_again :
  query_operation (backend_of None 0) OSSL_OP_SIGNATURE = (None, 0)
  /\ query_count
       (resolve_all (loaded (backend_of None 0)) OSSL_OP_SIGNATURE
                    [("ECDSA"%string, 7); ("ECDSA"%string, 7)]).2 = 2%nat
  /\ alg_cache
       (resolve_all (loaded (backend_of None 0)) OSSL_OP_SIGNATURE
                    [("ECDSA"%string, 7); ("ECDSA"%string, 7)]).1
       !! OSSL_OP_SIGNATURE = None.
Proof. repeat split; reflexivity. Qed.

(** C4, amended.  For every handle and operation kind:
    - when the handle is loaded, the operation kind in range, and the
      backend returns a non-NULL table and allows caching, any run of
      resolutions that starts on the empty slot queries once and leaves the
      table in the slot, and every later resolution reads that table
      without a backend call;
    - when the handle is loaded, the operation kind in range, and the
      backend forbids caching, every resolution of a run queries and the
      handle is left as it was, the slot empty;
    - a slot that holds a table holds the same table after any call on the
      handle, whatever its arguments. *)
Theorem C4_cache_discipline f operation_id :
  (forall prov algs a fid requests,
      provider f = Some prov ->
      0 < operation_id <= OSSL_OP__HIGHEST ->
      alg_cache f !! operation_id = None ->
      query_operation prov operation_id = (Some algs, 0) ->
      let f' := (resolve_all f operation_id ((a, fid) :: requests)).1 in
      query_count (resolve_all f operation_id ((a, fid) :: requests)).2 = 1%nat
      /\ alg_cache f' !! operation_id = Some algs
      /\ forall a' fid',
           fwd_get_func (Some f') operation_id (Some a') fid'
           = Ret {| res_func := scan_algorithms algs a' fid';
                    res_fwd := Some f';
                    res_trace := [] |})
  /\ (forall prov t no_cache requests,
         provider f = Some prov ->
         0 < operation_id <= OSSL_OP__HIGHEST ->
         alg_cache f !! operation_id = None ->
         query_operation prov operation_id = (t, no_cache) ->
         no_cache <> 0 ->
         query_count (resolve_all f operation_id requests).2 = length requests
         /\ (resolve_all f operation_id requests).1 = f)
  /\ (forall algs op' algorithm fid r,
         alg_cache f !! operation_id = Some algs ->
         fwd_get_func (Some f) op' algorithm fid = Ret r ->
         exists f', res_fwd r = Some f'
                    /\ alg_cache f' !! operation_id = Some algs).
Proof.
  split; [|split].
  - intros prov algs a fid requests Hp Hop Hc Hq f'.
    destruct (resolve_all_cacheable f prov operation_id algs a fid requests
                Hp Hop Hc Hq) as (Hn & Hs & Hp').
    split; [exact Hn|]. split; [exact Hs|].
    intros a' fid'.
    exact (fwd_get_func_cached f' prov operation_id a' fid' algs Hp' Hop Hs).
  - intros prov t nc requests Hp Hop Hc Hq Hnc.
    exact (resolve_all_not_cacheable f prov operation_id t nc requests
             Hp Hop Hc Hq Hnc).
  - intros algs op' algorithm fid r Hc Hr.
    destruct (fwd_get_func_keeps_slot f operation_id algs op' algorithm fid r
                Hc Hr) as (f' & H1 & _ & H2).
    eauto.
Qed.

Lemma C4_cache_discipline_witness :
  (query_count
     (resolve_all (loaded (backend_of (Some (table_of "ECDSA")) 0))
                  OSSL_OP_SIGNATURE
                  [("ECDSA"%string, 7); ("RSA"%string, 7)]).2 = 1%nat)
  /\ (query_count
        (resolve_all (loaded (backend_of (Some (table_of "ECDSA")) 1))
                     OSSL_OP_SIGNATURE
                     [("ECDSA"%string, 7); ("RSA"%string, 7)]).2 = 2%nat)
  /\ (exists f',
        res_fwd {| res_func := None; res_fwd := Some cached_handle;
                   res_trace := [] |} = Some f'
        /\ alg_cache f' !! OSSL_OP_SIGNATURE = Some (table_of "ECDSA")).
Proof.
  assert (Hop : 0 < OSSL_OP_SIGNATURE <= OSSL_OP__HIGHEST)
    by (unfold OSSL_OP_SIGNATURE, OSSL_OP__HIGHEST; lia).
  split; [|split].
  - destruct (C4_cache_discipline
                (loaded (backend_of (Some (table_of "ECDSA")) 0))
                OSSL_OP_SIGNATURE) as (Ha & _ & _).
    exact (proj1 (Ha (backend_of (Some (table_of "ECDSA")) 0)
                     (table_of "ECDSA") "ECDSA"%string 7
                     [("RSA"%string, 7)] eq_refl Hop eq_refl eq_refl)).
  - destruct (C4_cache_discipline
                (loaded (backend_of (Some (table_of "ECDSA")) 1))
                OSSL_OP_SIGNATURE) as (_ & Hb & _).
    refine (proj1 (Hb (backend_of (Some (table_of "ECDSA")) 1)
                      (Some (table_of "ECDSA")) 1
                      [("ECDSA"%string, 7); ("RSA"%string, 7)]
                      eq_refl Hop eq_refl eq_refl _)).
    lia.
  - destruct (C4_cache_discipline cached_handle OSSL_OP_SIGNATURE)
      as (_ & _ & Hc).
    exact (Hc (table_of "ECDSA") OSSL_OP_SIGNATURE (Some "RSA"%string) 7 _
              eq_refl eq_refl).
Defined.

(** * Properties of the codec *)

(** An exit of the codec that returns the error value. *)
Ltac error_exit :=
  intros [= <-]; simpl; split; [auto | discriminate].

(** A failing run whose trace has no writing call. *)
Ltac failed_without_writing :=
  eexists; split; [reflexivity |]; simpl; intuition discriminate.

Section Codec.

Lemma Z_of_byte_range b : 0 <= Z_of_byte b < 256.
Proof.
  unfold Z_of_byte. pose proof (Byte.to_N_bounded b). lia.
Qed.

Lemma be_fold_range s : forall acc k,
  0 <= k -> 0 <= acc < 256 ^ k ->
  0 <= fold_left (fun acc b => acc * 256 + Z_of_byte b) s acc
    < 256 ^ (k + Z.of_nat (length s)).
Proof.
  induction s as [|b s IH]; intros acc k Hk Hacc; simpl length.
  - simpl. now rewrite Z.add_0_r.
  - simpl fold_left.
    replace (k + Z.of_nat (S (length s))) with ((k + 1) + Z.of_nat (length s))
      by lia.
    apply IH; [lia|].
    pose proof (Z_of_byte_range b).
    rewrite Z.pow_add_r by lia. change (256 ^ 1) with 256. nia.
Qed.

Lemma be_value_range s : 0 <= be_value s < 256 ^ Z.of_nat (length s).
Proof.
  unfold be_value.
  pose proof (be_fold_range s 0 0 ltac:(lia) ltac:(simpl; lia)) as H.
  exact H.
Qed.

Lemma be_value_range_le s h :
  (length s <= h)%nat -> 0 <= be_value s < 256 ^ Z.of_nat h.
Proof.
  intros Hl. pose proof (be_value_range s) as [H0 H1]. split; trivial.
  eapply Z.lt_le_trans; [exact H1|].
  apply Z.pow_le_mono_r; lia.
Qed.

Lemma BN_num_bits_bound n h :
  0 <= h -> 0 <= n < 256 ^ h -> 0 <= BN_num_bits n <= 8 * h.
Proof.
  intros Hh [Hn0 Hn]. unfold BN_num_bits.
  destruct (Z.eqb_spec n 0) as [->|Hne]; [lia|].
  assert (Hlog : Z.log2 n < 8 * h).
  { apply Z.log2_lt_pow2; [lia|].
    rewrite Z.pow_mul_r by lia. exact Hn. }
  pose proof (Z.log2_nonneg n). lia.
Qed.

Lemma length_BN_bn2binpad n k : length (BN_bn2binpad n k) = k.
Proof.
  unfold BN_bn2binpad.
  now rewrite length_map, length_rev, length_seq.
Qed.

Lemma encode_der_length_ok c :
  0 <= c <= 65535 ->
  exists l, ossl_encode_der_length c = Some l /\ (1 <= length l <= 3)%nat.
Proof.
  intros Hc. unfold ossl_encode_der_length.
  destruct (Z.ltb_spec 65535 c); [lia|].
  destruct (255 <? c); [eexists; split; [reflexivity|simpl; lia]|].
  destruct (127 <? c); eexists; (split; [reflexivity|simpl; lia]).
Qed.

Lemma encode_der_integer_ok n h :
  0 <= h <= 65534 -> 0 <= n < 256 ^ h ->
  exists e, ossl_encode_der_integer n = Some e
            /\ (3 <= length e)%nat /\ Z.of_nat (length e) <= h + 5.
Proof.
  intros Hh Hn. unfold ossl_encode_der_integer.
  destruct (Z.ltb_spec n 0); [lia|].
  pose proof (BN_num_bits_bound n h ltac:(lia) Hn) as Hb.
  assert (Hc : 1 <= BN_num_bits n / 8 + 1 <= h + 1).
  { split.
    - pose proof (Z.div_pos (BN_num_bits n) 8). lia.
    - assert (BN_num_bits n / 8 <= h); [|lia].
      apply Z.div_le_upper_bound; lia. }
  destruct (encode_der_length_ok (BN_num_bits n / 8 + 1) ltac:(lia))
    as (l & -> & Hl).
  eexists. split; [reflexivity|].
  simpl length. rewrite length_app, length_BN_bn2binpad. lia.
Qed.

Lemma encode_der_dsa_sig_ok r s h :
  0 <= h <= 32762 -> 0 <= r < 256 ^ h -> 0 <= s < 256 ^ h ->
  exists der, ossl_encode_der_dsa_sig r s = Some der
              /\ (8 <= length der)%nat.
Proof.
  intros Hh Hr Hs. unfold ossl_encode_der_dsa_sig.
  destruct (encode_der_integer_ok r h ltac:(lia) Hr) as (er & -> & Hr3 & Hr5).
  destruct (encode_der_integer_ok s h ltac:(lia) Hs) as (es & -> & Hs3 & Hs5).
  destruct (encode_der_length_ok (Z.of_nat (length (er ++ es))))
    as (l & -> & Hl).
  { rewrite length_app. lia. }
  eexists. split; [reflexivity|].
  simpl length. rewrite !length_app. lia.
Qed.

Lemma int_of_size_t_small z : 0 <= z < 2 ^ 31 -> int_of_size_t z = z.
Proof.
  intros Hz. unfold int_of_size_t.
  rewrite Z.mod_small by lia.
  destruct (Z.ltb_spec z (2 ^ 31)); lia.
Qed.

Lemma BN_bin2bn_in_bounds buf off len :
  0 <= off -> 0 <= len < 2 ^ 31 -> off + len <= Z.of_nat (length buf) ->
  BN_bin2bn true buf off len
  = Ret (Some (be_value (take (Z.to_nat len) (drop (Z.to_nat off) buf)))).
Proof.
  intros Hoff Hlen Hb. unfold BN_bin2bn.
  rewrite (int_of_size_t_small len Hlen). simpl negb. cbv iota.
  destruct (Z.ltb_spec len 0); [lia|].
  destruct (Z.eqb_spec len 0) as [->|Hne]; [reflexivity|].
  destruct (Z.leb_spec (off + len) (Z.of_nat (length buf))); [reflexivity|lia].
Qed.

Lemma BN_bin2bn_no_memory buf off len : BN_bin2bn false buf off len = Ret None.
Proof. reflexivity. Qed.

Lemma raw_pair_range raw n :
  0 <= sig_r (raw_pair raw n) < 256 ^ Z.of_nat (Z.to_nat (n / 2))
  /\ 0 <= sig_s (raw_pair raw n) < 256 ^ Z.of_nat (Z.to_nat (n / 2)).
Proof.
  unfold raw_pair. simpl.
  split; apply be_value_range_le; rewrite length_take; lia.
Qed.

(** A raw signature of at most 65525 bytes has an encoding. *)
Lemma encoding_exists raw n :
  0 < n <= 65525 ->
  exists der,
    ossl_encode_der_dsa_sig (sig_r (raw_pair raw n)) (sig_s (raw_pair raw n))
    = Some der
    /\ (8 <= length der)%nat.
Proof.
  intros Hn. destruct (raw_pair_range raw n) as [Hr Hs].
  assert (Hh : 0 <= n / 2 <= 32762) by (Z.div_mod_to_equations; lia).
  apply (encode_der_dsa_sig_ok _ _ (Z.of_nat (Z.to_nat (n / 2))));
    trivial; lia.
Qed.

Lemma codec_reads raw n :
  0 < n <= 65525 -> n <= Z.of_nat (length raw) ->
  BN_bin2bn true raw 0 (n / 2) = Ret (Some (sig_r (raw_pair raw n)))
  /\ BN_bin2bn true raw (n / 2) (n / 2) = Ret (Some (sig_s (raw_pair raw n))).
Proof.
  intros Hn Hl.
  assert (Hh : 0 <= n / 2 <= 32762) by (Z.div_mod_to_equations; lia).
  assert (H2 : n / 2 + n / 2 <= n) by (Z.div_mod_to_equations; lia).
  split; rewrite BN_bin2bn_in_bounds; try reflexivity; lia.
Qed.

(** The codec on a raw signature it can read and encode, when libcrypto
    finds the memory for the signature object and for the sizing call. *)
Lemma codec_run lc raw n sig siglen der :
  0 < n <= 65525 -> n <= Z.of_nat (length raw) ->
  ECDSA_SIG_new_ok lc = true -> BN_new_r_ok lc = true ->
  BN_new_s_ok lc = true -> i2d_size_ok lc = true ->
  ossl_encode_der_dsa_sig (sig_r (raw_pair raw n)) (sig_s (raw_pair raw n))
  = Some der ->
  ossl_ecdsa_signature lc (Some raw) n sig siglen
  = match sig with
    | None =>
        Ret {| rc := OSSL_RV_OK; sig_out := None;
               siglen_out := Z.of_nat (length der); calls := calls_sized |}
    | Some buf =>
        if siglen <? Z.of_nat (length der)
        then Ret {| rc := OSSL_RV_ERR; sig_out := Some buf;
                    siglen_out := siglen; calls := calls_sized |}
        else
          match i2d_write_stop lc with
          | None =>
              if (length der <=? length buf)%nat
              then Ret {| rc := OSSL_RV_OK;
                          sig_out := Some (der ++ drop (length der) buf);
                          siglen_out := Z.of_nat (length der);
                          calls := calls_written |}
              else Fault
          | Some k =>
              if (length (take k der) <=? length buf)%nat
              then Ret {| rc := OSSL_RV_ERR;
                          sig_out := Some (take k der
                                           ++ drop (length (take k der)) buf);
                          siglen_out := siglen;
                          calls := calls_written |}
              else Fault
          end
    end.
Proof.
  intros Hn Hl Hnew Hr Hs Hsz Hder.
  destruct (codec_reads raw n Hn Hl) as [Er Es].
  assert (Hpos : (8 <= length der)%nat).
  { destruct (encoding_exists raw n Hn) as (d & Hd & H8). congruence. }
  unfold ossl_ecdsa_signature.
  destruct (Z.eqb_spec n 0); [lia|].
  rewrite Hnew, Hr, Hs, Er, Es, Hsz. cbn [negb ECDSA_SIG_set0].
  unfold i2d_ECDSA_SIG_size, i2d_ECDSA_SIG_write.
  cbn [sig_r sig_s]. rewrite Hder.
  destruct (Z.leb_spec (Z.of_nat (length der)) 0); [lia|].
  destruct sig as [buf|]; [|reflexivity].
  destruct (siglen <? Z.of_nat (length der)); [reflexivity|].
  unfold write_bytes.
  destruct (i2d_write_stop lc) as [k|].
  - destruct (length (take k der) <=? length buf)%nat; reflexivity.
  - destruct (length der <=? length buf)%nat; [|reflexivity].
    destruct (Z.leb_spec (Z.of_nat (length der)) 0); [lia|reflexivity].
Qed.

(** With too small a declared capacity the codec fails and leaves the
    buffer and the length alone, whatever libcrypto does. *)
Lemma codec_insufficient lc raw n buf siglen der :
  0 < n <= 65525 -> n <= Z.of_nat (length raw) ->
  ossl_encode_der_dsa_sig (sig_r (raw_pair raw n)) (sig_s (raw_pair raw n))
  = Some der ->
  siglen < Z.of_nat (length der) ->
  exists cs,
    ossl_ecdsa_signature lc (Some raw) n (Some buf) siglen
    = Ret {| rc := OSSL_RV_ERR; sig_out := Some buf; siglen_out := siglen;
             calls := cs |}
    /\ ~ In (Call_i2d_ECDSA_SIG true) cs.
Proof.
  intros Hn Hl Hder Hlt.
  destruct (codec_reads raw n Hn Hl) as [Er Es].
  unfold ossl_ecdsa_signature.
  destruct (Z.eqb_spec n 0); [lia|].
  destruct (ECDSA_SIG_new_ok lc); cbn [negb].
  2:{ failed_without_writing. }
  destruct (BN_new_r_ok lc), (BN_new_s_ok lc);
    rewrite ?Er, ?Es, ?BN_bin2bn_no_memory; cbn [ECDSA_SIG_set0];
    try (failed_without_writing).
  unfold i2d_ECDSA_SIG_size. cbn [sig_r sig_s]. rewrite Hder.
  destruct (i2d_size_ok lc).
  - destruct (Z.of_nat (length der) <=? 0);
      [failed_without_writing|].
    destruct (Z.ltb_spec siglen (Z.of_nat (length der))); [|lia].
    failed_without_writing.
  - failed_without_writing.
Qed.

End Codec.

(** ** The claims about the codec *)

(** C8.  With [raw_sig] NULL or [raw_siglen] zero the codec returns the
    error value at once: no call into libcrypto, and neither the buffer nor
    the length behind [siglen] is touched. *)
Theorem C8_absent_or_empty_raw_rejected lc raw_sig raw_siglen sig siglen :
  raw_sig = None \/ raw_siglen = 0 ->
  ossl_ecdsa_signature lc raw_sig raw_siglen sig siglen
  = Ret {| rc := OSSL_RV_ERR; sig_out := sig; siglen_out := siglen;
           calls := [] |}.
Proof.
  intros [-> | ->]; [reflexivity|].
  destruct raw_sig; reflexivity.
Qed.

Lemma C8_absent_or_empty_raw_rejected_witness :
  ossl_ecdsa_signature libcrypto_ok None 0 (Some raw3) 3
  = Ret {| rc := OSSL_RV_ERR; sig_out := Some raw3; siglen_out := 3;
           calls := [] |}
  /\ ossl_ecdsa_signature libcrypto_ok (Some raw3) 0 (Some raw3) 3
     = Ret {| rc := OSSL_RV_ERR; sig_out := Some raw3; siglen_out := 3;
              calls := [] |}.
Proof.
  split.
  - apply (C8_absent_or_empty_raw_rejected libcrypto_ok None 0 (Some raw3) 3).
    left. reflexivity.
  - apply (C8_absent_or_empty_raw_rejected
             libcrypto_ok (Some raw3) 0 (Some raw3) 3).
    right. reflexivity.
Defined.

(** C7.  For a raw signature of 1 to 65525 bytes, all of them readable,
    and libcrypto not short of memory: the sizing call succeeds, stores the
    length of the encoding behind [siglen] and writes no byte (there is no
    buffer, and the writing call of libcrypto is not made); an encoding
    call on the same input with room for that length writes exactly the
    encoding and reports the same length. *)
Theorem C7_sizing_mode_reports_encoded_length raw raw_siglen siglen0 :
  0 < raw_siglen <= 65525 ->
  raw_siglen <= Z.of_nat (length raw) ->
  exists der,
    ossl_encode_der_dsa_sig (sig_r (raw_pair raw raw_siglen))
                            (sig_s (raw_pair raw raw_siglen)) = Some der
    /\ ossl_ecdsa_signature libcrypto_ok (Some raw) raw_siglen None siglen0
       = Ret {| rc := OSSL_RV_OK; sig_out := None;
                siglen_out := Z.of_nat (length der);
                calls := calls_sized |}
    /\ ~ In (Call_i2d_ECDSA_SIG true) calls_sized
    /\ forall buf siglen,
         Z.of_nat (length der) <= siglen ->
         siglen <= Z.of_nat (length buf) ->
         ossl_ecdsa_signature libcrypto_ok (Some raw) raw_siglen
                              (Some buf) siglen
         = Ret {| rc := OSSL_RV_OK;
                  sig_out := Some (der ++ drop (length der) buf);
                  siglen_out := Z.of_nat (length der);
                  calls := calls_written |}.
Proof.
  intros Hn Hl.
  destruct (encoding_exists raw raw_siglen Hn) as (der & Hder & H8).
  exists der. split; [exact Hder|]. split; [|split].
  - now rewrite (codec_run libcrypto_ok raw raw_siglen None siglen0 der).
  - simpl. intuition discriminate.
  - intros buf siglen Hcap Hbuf.
    rewrite (codec_run libcrypto_ok raw raw_siglen (Some buf) siglen der);
      trivial.
    destruct (Z.ltb_spec siglen (Z.of_nat (length der))); [lia|].
    cbn [i2d_write_stop libcrypto_ok].
    destruct (Nat.leb_spec (length der) (length buf)); [reflexivity|lia].
Qed.

Lemma C7_sizing_mode_reports_encoded_length_witness :
  ossl_ecdsa_signature libcrypto_ok (Some raw4) 4 None 0
  = Ret {| rc := OSSL_RV_OK; sig_out := None; siglen_out := 12;
           calls := calls_sized |}
  /\ ossl_ecdsa_signature libcrypto_ok (Some raw4) 4
                          (Some (repeat Byte.xff 14)) 12
     = Ret {| rc := OSSL_RV_OK;
              sig_out := Some (der4 ++ [Byte.xff; Byte.xff]);
              siglen_out := 12;
              calls := calls_written |}.
Proof.
  destruct (C7_sizing_mode_reports_encoded_length raw4 4 0
              ltac:(lia) ltac:(simpl; lia))
    as (der & Hder & Hsz & _ & Henc).
  assert (E : der = der4)
    by (vm_compute in Hder; injection Hder as <-; reflexivity).
  subst der. split; [exact Hsz|].
  apply Henc; simpl; lia.
Defined.

(** C6.  For a raw signature of 1 to 65525 readable bytes (of even length,
    as the claim has it) with encoding [der]: an encoding call whose
    declared capacity is below the length of [der] returns the error value,
    leaves the buffer and the length as they were and never reaches the
    writing call, whatever libcrypto does; with a declared capacity of at
    least that length, not beyond the buffer, and libcrypto not short of
    memory, it writes [der] at the start of the buffer and stores its
    length. *)
Theorem C6_capacity_checked_before_writing raw raw_siglen :
  Z.even raw_siglen = true ->
  0 < raw_siglen <= 65525 ->
  raw_siglen <= Z.of_nat (length raw) ->
  exists der,
    ossl_encode_der_dsa_sig (sig_r (raw_pair raw raw_siglen))
                            (sig_s (raw_pair raw raw_siglen)) = Some der
    /\ (forall siglen0,
          ossl_ecdsa_signature libcrypto_ok (Some raw) raw_siglen None siglen0
          = Ret {| rc := OSSL_RV_OK; sig_out := None;
                   siglen_out := Z.of_nat (length der);
                   calls := calls_sized |})
    /\ (forall lc buf siglen,
          siglen < Z.of_nat (length der) ->
          exists cs,
            ossl_ecdsa_signature lc (Some raw) raw_siglen (Some buf) siglen
            = Ret {| rc := OSSL_RV_ERR; sig_out := Some buf;
                     siglen_out := siglen; calls := cs |}
            /\ ~ In (Call_i2d_ECDSA_SIG true) cs)
    /\ (forall buf siglen,
          Z.of_nat (length der) <= siglen ->
          siglen <= Z.of_nat (length buf) ->
          ossl_ecdsa_signature libcrypto_ok (Some raw) raw_siglen
                               (Some buf) siglen
          = Ret {| rc := OSSL_RV_OK;
                   sig_out := Some (der ++ drop (length der) buf);
                   siglen_out := Z.of_nat (length der);
                   calls := calls_written |}).
Proof.
  intros _ Hn Hl.
  destruct (encoding_exists raw raw_siglen Hn) as (der & Hder & H8).
  exists der. split; [exact Hder|]. split; [|split].
  - intros siglen0.
    now rewrite (codec_run libcrypto_ok raw raw_siglen None siglen0 der).
  - intros lc buf siglen Hlt.
    exact (codec_insufficient lc raw raw_siglen buf siglen der Hn Hl Hder Hlt).
  - intros buf siglen Hcap Hbuf.
    rewrite (codec_run libcrypto_ok raw raw_siglen (Some buf) siglen der);
      trivial.
    destruct (Z.ltb_spec siglen (Z.of_nat (length der))); [lia|].
    cbn [i2d_write_stop libcrypto_ok].
    destruct (Nat.leb_spec (length der) (length buf)); [reflexivity|lia].
Qed.

Lemma C6_capacity_checked_before_writing_witness :
  ossl_ecdsa_signature libcrypto_ok (Some raw4) 4 None 0
  = Ret {| rc := OSSL_RV_OK; sig_out := None; siglen_out := 12;
           calls := calls_sized |}
  /\ (exists cs,
        ossl_ecdsa_signature libcrypto_ok (Some raw4) 4
                             (Some (repeat Byte.xff 12)) 11
        = Ret {| rc := OSSL_RV_ERR; sig_out := Some (repeat Byte.xff 12);
                 siglen_out := 11; calls := cs |}
        /\ ~ In (Call_i2d_ECDSA_SIG true) cs)
  /\ ossl_ecdsa_signature libcrypto_ok (Some raw4) 4
                          (Some (repeat Byte.xff 12)) 12
     = Ret {| rc := OSSL_RV_OK; sig_out := Some der4; siglen_out := 12;
              calls := calls_written |}.
Proof.
  destruct (C6_capacity_checked_before_writing raw4 4
              eq_refl ltac:(lia) ltac:(simpl; lia))
    as (der & Hder & Hsz & Hfail & Henc).
  assert (E : der = der4)
    by (vm_compute in Hder; injection Hder as <-; reflexivity).
  subst der. split; [exact (Hsz 0)|]. split.
  - apply Hfail. simpl. lia.
  - apply Henc; simpl; lia.
Defined.

(** C5, as stated, fails: a raw signature of three bytes is not rejected.
    The sizing call succeeds, and the encoding call writes the encoding of
    the pair (first byte, second byte); the third byte is not read. *)
Lemma C5_odd_length_not_rejected :
  Z.odd 3 = true
  /\ ossl_ecdsa_signature libcrypto_ok (Some raw3) 3 None 0
     = Ret {| rc := OSSL_RV_OK; sig_out := None; siglen_out := 8;
              calls := calls_sized |}
  /\ ossl_ecdsa_signature libcrypto_ok (Some raw3) 3
                          (Some (repeat Byte.xff 8)) 8
     = Ret {| rc := OSSL_RV_OK; sig_out := Some der3; siglen_out := 8;
              calls := calls_written |}.
Proof. repeat split; reflexivity. Qed.

(** C5, amended.  An odd length is not rejected.  For a raw signature of
    an odd number of readable bytes, at most 65525, and libcrypto not short
    of memory, the codec succeeds in both modes on the encoding of the two
    integers held by the first [raw_siglen / 2] bytes and the
    [raw_siglen / 2] bytes after them; the last byte is ignored, so that
    from three bytes on the call does what the call with [raw_siglen - 1]
    does, whatever libcrypto and the output arguments are. *)
Theorem C5_odd_length_encodes_two_halves raw raw_siglen :
  Z.odd raw_siglen = true ->
  0 < raw_siglen <= 65525 ->
  raw_siglen <= Z.of_nat (length raw) ->
  (exists der,
     ossl_encode_der_dsa_sig
       (be_value (take (Z.to_nat (raw_siglen / 2)) raw))
       (be_value (take (Z.to_nat (raw_siglen / 2))
                       (drop (Z.to_nat (raw_siglen / 2)) raw)))
     = Some der
     /\ (forall siglen0,
           ossl_ecdsa_signature libcrypto_ok (Some raw) raw_siglen None siglen0
           = Ret {| rc := OSSL_RV_OK; sig_out := None;
                    siglen_out := Z.of_nat (length der);
                    calls := calls_sized |})
     /\ (forall buf siglen,
           Z.of_nat (length der) <= siglen ->
           siglen <= Z.of_nat (length buf) ->
           ossl_ecdsa_signature libcrypto_ok (Some raw) raw_siglen
                                (Some buf) siglen
           = Ret {| rc := OSSL_RV_OK;
                    sig_out := Some (der ++ drop (length der) buf);
                    siglen_out := Z.of_nat (length der);
                    calls := calls_written |}))
  /\ (1 < raw_siglen ->
      forall lc sig siglen,
        ossl_ecdsa_signature lc (Some raw) raw_siglen sig siglen
        = ossl_ecdsa_signature lc (Some raw) (raw_siglen - 1) sig siglen).
Proof.
  intros Hodd Hn Hl. split.
  - destruct (encoding_exists raw raw_siglen Hn) as (der & Hder & H8).
    exists der. split; [exact Hder|]. split.
    + intros siglen0.
      now rewrite (codec_run libcrypto_ok raw raw_siglen None siglen0 der).
    + intros buf siglen Hcap Hbuf.
      rewrite (codec_run libcrypto_ok raw raw_siglen (Some buf) siglen der);
        trivial.
      destruct (Z.ltb_spec siglen (Z.of_nat (length der))); [lia|].
      cbn [i2d_write_stop libcrypto_ok].
      destruct (Nat.leb_spec (length der) (length buf)); [reflexivity|lia].
  - intros H1 lc sig siglen.
    assert (Hhalf : (raw_siglen - 1) / 2 = raw_siglen / 2).
    { rewrite Z.odd_spec in Hodd. destruct Hodd as [m ->].
      replace (2 * m + 1 - 1) with (m * 2) by lia.
      rewrite Z.div_mul by lia.
      replace (2 * m + 1) with (1 + m * 2) by lia.
      rewrite Z.div_add by lia. reflexivity. }
    unfold ossl_ecdsa_signature. rewrite Hhalf.
    destruct (Z.eqb_spec raw_siglen 0); [lia|].
    destruct (Z.eqb_spec (raw_siglen - 1) 0); [lia|].
    reflexivity.
Qed.

Lemma C5_odd_length_encodes_two_halves_witness :
  ossl_ecdsa_signature libcrypto_ok (Some raw3) 3 None 0
  = Ret {| rc := OSSL_RV_OK; sig_out := None; siglen_out := 8;
           calls := calls_sized |}
  /\ ossl_ecdsa_signature libcrypto_ok (Some raw3) 3
                          (Some (repeat Byte.xff 8)) 8
     = ossl_ecdsa_signature libcrypto_ok (Some raw3) (3 - 1)
                            (Some (repeat Byte.xff 8)) 8.
Proof.
  destruct (C5_odd_length_encodes_two_halves raw3 3
              eq_refl ltac:(lia) ltac:(simpl; lia))
    as ((der & Hder & Hsz & _) & Hsame).
  assert (E : der = der3)
    by (vm_compute in Hder; injection Hder as <-; reflexivity).
  subst der. split; [exact (Hsz 0)|].
  apply Hsame. lia.
Defined.

(** C10.  Every return value of the codec is one of two: [OSSL_RV_OK] or
    [OSSL_RV_ERR].  It is [OSSL_RV_OK] only when no cause of failure was
    met: the raw pointer is there and the raw length is not zero, libcrypto
    found the memory for the signature object, the two integers and the
    sizing call, the encoding has a positive length and, in encoding mode,
    the writing call went through and the declared capacity covered that
    length.  Every failure thus returns the one value [OSSL_RV_ERR]. *)
Theorem C10_one_error_value lc raw_sig raw_siglen sig siglen r :
  ossl_ecdsa_signature lc raw_sig raw_siglen sig siglen = Ret r ->
  (rc r = OSSL_RV_OK \/ rc r = OSSL_RV_ERR)
  /\ (rc r = OSSL_RV_OK ->
      raw_sig <> None /\ raw_siglen <> 0
      /\ ECDSA_SIG_new_ok lc = true
      /\ BN_new_r_ok lc = true /\ BN_new_s_ok lc = true
      /\ i2d_size_ok lc = true
      /\ 0 < siglen_out r
      /\ (sig <> None ->
          i2d_write_stop lc = None /\ siglen_out r <= siglen)).
Proof.
  unfold ossl_ecdsa_signature, OSSL_RV_OK, OSSL_RV_ERR.
  destruct raw_sig as [raw|]; [|error_exit].
  destruct (Z.eqb_spec raw_siglen 0) as [->|Hn0];
    [error_exit|].
  destruct (ECDSA_SIG_new_ok lc); cbn [negb];
    [|error_exit].
  destruct (BN_new_r_ok lc) eqn:Hr.
  2:{ rewrite BN_bin2bn_no_memory.
      destruct (BN_bin2bn _ raw (raw_siglen / 2) (raw_siglen / 2))
        as [|s]; [discriminate|].
      cbn [ECDSA_SIG_set0]. error_exit. }
  destruct (BN_bin2bn true raw 0 (raw_siglen / 2)) as [|[vr|]];
    [discriminate| |].
  2:{ destruct (BN_bin2bn _ raw (raw_siglen / 2) (raw_siglen / 2))
        as [|s]; [discriminate|].
      cbn [ECDSA_SIG_set0]. error_exit. }
  destruct (BN_new_s_ok lc) eqn:Hs.
  2:{ rewrite BN_bin2bn_no_memory. cbn [ECDSA_SIG_set0].
      error_exit. }
  destruct (BN_bin2bn true raw (raw_siglen / 2) (raw_siglen / 2))
    as [|[vs|]]; [discriminate| |].
  2:{ cbn [ECDSA_SIG_set0].
      error_exit. }
  cbn [ECDSA_SIG_set0].
  unfold i2d_ECDSA_SIG_size, i2d_ECDSA_SIG_write, write_bytes.
  cbn [sig_r sig_s].
  destruct (i2d_size_ok lc);
    [|simpl; error_exit].
  destruct (ossl_encode_der_dsa_sig vr vs) as [der|];
    [|simpl; error_exit].
  destruct (Z.leb_spec (Z.of_nat (length der)) 0) as [Hle|Hpos];
    [error_exit|].
  destruct sig as [buf|].
  2:{ intros [= <-]; simpl. split; [auto|]. intros _.
      repeat split; try congruence; try lia. }
  destruct (Z.ltb_spec siglen (Z.of_nat (length der))) as [Hlt|Hge];
    [error_exit|].
  destruct (i2d_write_stop lc) as [k|].
  - destruct (length (take k der) <=? length buf)%nat; [|discriminate].
    simpl. error_exit.
  - destruct (length der <=? length buf)%nat; [|discriminate].
    destruct (Z.leb_spec (Z.of_nat (length der)) 0); [lia|].
    intros [= <-]; simpl. split; [auto|]. intros _.
    repeat split; try congruence; try lia.
Qed.

Lemma C10_one_error_value_witness :
  (OSSL_RV_ERR = OSSL_RV_OK \/ OSSL_RV_ERR = OSSL_RV_ERR)
  /\ (OSSL_RV_ERR = OSSL_RV_OK ->
      Some raw4 <> None /\ 4 <> 0
      /\ ECDSA_SIG_new_ok libcrypto_ok = true
      /\ BN_new_r_ok libcrypto_ok = true /\ BN_new_s_ok libcrypto_ok = true
      /\ i2d_size_ok libcrypto_ok = true
      /\ 0 < 11
      /\ (Some (repeat Byte.xff 12) <> None ->
          i2d_write_stop libcrypto_ok = None /\ 11 <= 11)).
Proof.
  exact (C10_one_error_value libcrypto_ok (Some raw4) 4
           (Some (repeat Byte.xff 12)) 11
           {| rc := OSSL_RV_ERR; sig_out := Some (repeat Byte.xff 12);
              siglen_out := 11; calls := calls_sized |}
           eq_refl).
Defined.

(** * Further properties: padding names and the execution context *)

Section Padding.

Lemma ossl_parse_padding_cases p :
  exists v,
    ossl_parse_padding (Some p) = Ret v
    /\ ((p = OSSL_PKEY_RSA_PAD_MODE_NONE /\ v = RSA_NO_PADDING)
        \/ (p = OSSL_PKEY_RSA_PAD_MODE_PKCSV15 /\ v = RSA_PKCS1_PADDING)
        \/ (p = OSSL_PKEY_RSA_PAD_MODE_OAEP /\ v = RSA_PKCS1_OAEP_PADDING)
        \/ (p = OSSL_PKEY_RSA_PAD_MODE_X931 /\ v = RSA_X931_PADDING)
        \/ (p = OSSL_PKEY_RSA_PAD_MODE_PSS /\ v = RSA_PKCS1_PSS_PADDING)
        \/ (~ In p padding_names /\ v = -1)).
Proof.
  unfold ossl_parse_padding, padding_names. eexists. split; [reflexivity|].
  destruct (String.eqb_spec p OSSL_PKEY_RSA_PAD_MODE_NONE); [auto|].
  destruct (String.eqb_spec p OSSL_PKEY_RSA_PAD_MODE_PKCSV15); [auto|].
  destruct (String.eqb_spec p OSSL_PKEY_RSA_PAD_MODE_OAEP); [auto 6|].
  destruct (String.eqb_spec p OSSL_PKEY_RSA_PAD_MODE_X931); [auto 6|].
  destruct (String.eqb_spec p OSSL_PKEY_RSA_PAD_MODE_PSS); [auto 7|].
  do 5 right. split; [|reflexivity]. simpl. intuition congruence.
Qed.

End Padding.

(** X1.  [ossl_parse_padding] on a string: the result is -1 exactly when
    the string is none of the five padding names (compared byte for byte),
    otherwise one of the five padding modes; and two strings that get the
    same padding mode are the same string. *)
Theorem X1_parse_padding_recognizes_exactly_five p q :
  exists v w,
    ossl_parse_padding (Some p) = Ret v
    /\ ossl_parse_padding (Some q) = Ret w
    /\ (v = -1 <-> ~ In p padding_names)
    /\ In v [-1; RSA_PKCS1_PADDING; RSA_NO_PADDING; RSA_PKCS1_OAEP_PADDING;
             RSA_X931_PADDING; RSA_PKCS1_PSS_PADDING]
    /\ (v = w -> v <> -1 -> p = q).
Proof.
  destruct (ossl_parse_padding_cases p) as (v & Hv & Hp).
  destruct (ossl_parse_padding_cases q) as (w & Hw & Hq).
  exists v, w. split; [exact Hv|]. split; [exact Hw|].
  unfold padding_names, RSA_PKCS1_PADDING, RSA_NO_PADDING,
    RSA_PKCS1_OAEP_PADDING, RSA_X931_PADDING, RSA_PKCS1_PSS_PADDING in *.
  destruct Hp as [[-> ->]|[[-> ->]|[[-> ->]|[[-> ->]|[[-> ->]|[Hn ->]]]]]];
    (split; [split; [try discriminate; tauto
                    | intros H; try reflexivity; exfalso; apply H;
                      simpl; auto 6]
            |]);
    (split; [simpl; auto 7|]);
    intros <- Hne; try congruence;
    destruct Hq as [[-> Hw']|[[-> Hw']|[[-> Hw']|[[-> Hw']|[[-> Hw']|[_ Hw']]]]]];
    try reflexivity; discriminate.
Qed.

Section ExecutionContext.

Lemma core_init_store_fields d f :
  function_id d <> 0 ->
  get_params (core_init_store d f)
  = (if function_id d =? OSSL_FUNC_CORE_GET_PARAMS
     then Some (function d) else get_params f)
  /\ new_error (core_init_store d f)
     = (if function_id d =? OSSL_FUNC_CORE_NEW_ERROR
        then Some (function d) else new_error f)
  /\ set_error_debug (core_init_store d f)
     = (if function_id d =? OSSL_FUNC_CORE_SET_ERROR_DEBUG
        then Some (function d) else set_error_debug f)
  /\ vset_error (core_init_store d f)
     = (if function_id d =? OSSL_FUNC_CORE_VSET_ERROR
        then Some (function d) else vset_error f).
Proof.
  intros _. unfold core_init_store, OSSL_FUNC_CORE_GET_PARAMS,
    OSSL_FUNC_CORE_NEW_ERROR, OSSL_FUNC_CORE_SET_ERROR_DEBUG,
    OSSL_FUNC_CORE_VSET_ERROR.
  destruct (Z.eqb_spec (function_id d) 2) as [E|_];
    [rewrite ?E; simpl; auto|].
  destruct (Z.eqb_spec (function_id d) 5) as [E|_];
    [rewrite ?E; simpl; auto|].
  destruct (Z.eqb_spec (function_id d) 6) as [E|_];
    [rewrite ?E; simpl; auto|].
  destruct (Z.eqb_spec (function_id d) 7) as [E|_];
    [rewrite ?E; simpl; auto|].
  simpl. auto.
Qed.

Lemma core_init_scan_slots table : forall f,
  get_params (core_init_scan table f)
  = slot_after table OSSL_FUNC_CORE_GET_PARAMS (get_params f)
  /\ new_error (core_init_scan table f)
     = slot_after table OSSL_FUNC_CORE_NEW_ERROR (new_error f)
  /\ set_error_debug (core_init_scan table f)
     = slot_after table OSSL_FUNC_CORE_SET_ERROR_DEBUG (set_error_debug f)
  /\ vset_error (core_init_scan table f)
     = slot_after table OSSL_FUNC_CORE_VSET_ERROR (vset_error f).
Proof.
  unfold slot_after.
  induction table as [|d rest IH]; intros f; simpl; [auto|].
  destruct (Z.eqb_spec (function_id d) 0) as [E|Hne]; simpl; [auto|].
  destruct (IH (core_init_store d f)) as (H1 & H2 & H3 & H4).
  destruct (core_init_store_fields d f Hne) as (S1 & S2 & S3 & S4).
  rewrite H1, H2, H3, H4, S1, S2, S3, S4. clear.
  repeat split;
    match goal with
    | |- context [last_with_id ?l ?i] => destruct (last_with_id l i)
    end; trivial;
    match goal with
    | |- context [?a =? ?b] => destruct (a =? b)
    end; trivial.
Qed.

End ExecutionContext.

(** X2.  A [core_init] whose child context can be created returns
    [OSSL_RV_OK], records the host handle and the child context, and leaves
    in each of the four callback slots the function of the last entry with
    the slot's id that precedes the table's terminator; a slot whose id is
    not in the table keeps what it held.  Entries with other ids and
    entries behind the terminator have no effect. *)
Theorem X2_core_init_stores_last_live_entry ctx c hnd table :
  exists c',
    core_init (Some ctx) (Some c) hnd table
    = Ret (OSSL_RV_OK, c', [Lib_ctx_new_child hnd table])
    /\ handle c' = hnd
    /\ libctx c' = Some ctx
    /\ get_params (fns c')
       = slot_after table OSSL_FUNC_CORE_GET_PARAMS (get_params (fns c))
    /\ new_error (fns c')
       = slot_after table OSSL_FUNC_CORE_NEW_ERROR (new_error (fns c))
    /\ set_error_debug (fns c')
       = slot_after table OSSL_FUNC_CORE_SET_ERROR_DEBUG
                    (set_error_debug (fns c))
    /\ vset_error (fns c')
       = slot_after table OSSL_FUNC_CORE_VSET_ERROR (vset_error (fns c)).
Proof.
  eexists. split; [reflexivity|]. simpl.
  split; [reflexivity|]. split; [reflexivity|].
  apply core_init_scan_slots.
Qed.

(** X3.  Whatever [OSSL_LIB_CTX_new_child] answers, [core_init] on a
    context returns; it returns [OSSL_RV_OK] exactly when a child context
    was created; a [core_teardown] after it frees exactly that child
    context (nothing after a failed [core_init]) and leaves every field
    NULL, and a second [core_teardown] frees nothing. *)
Theorem X3_core_child_context_freed_once new_child c hnd table :
  exists rc c1 tr,
    core_init new_child (Some c) hnd table = Ret (rc, c1, tr)
    /\ (rc = OSSL_RV_OK <-> new_child <> None)
    /\ (rc = OSSL_RV_OK \/ rc = OSSL_RV_ERR)
    /\ core_teardown (Some c1)
       = (Some blank_core,
          match new_child with
          | Some ctx => [Lib_ctx_free ctx]
          | None => []
          end)
    /\ core_teardown (core_teardown (Some c1)).1 = (Some blank_core, []).
Proof.
  destruct new_child as [ctx|]; simpl; do 3 eexists;
    (split; [reflexivity|]); simpl; unfold OSSL_RV_OK, OSSL_RV_ERR;
    repeat split; auto; try congruence; try discriminate.
Qed.

(** X4.  After a [core_init] that succeeded, [ossl_put_error] calls the
    host through exactly the callbacks the table supplied (or that the
    context held before, for ids the table lacks): first new-error, then
    set-error-debug with file, line and function, then vset-error with the
    code, the format and its arguments, each with the host handle given to
    [core_init]; a missing callback drops its own call and no other. *)
Theorem X4_put_error_after_core_init ctx c hnd table err file line func
    fmt args :
  exists c',
    core_init (Some ctx) (Some c) hnd table
    = Ret (OSSL_RV_OK, c', [Lib_ctx_new_child hnd table])
    /\ ossl_put_error (Some c') err file line func fmt args
       = (match slot_after table OSSL_FUNC_CORE_NEW_ERROR
                           (new_error (fns c)) with
          | Some fn => [Host_new_error fn hnd]
          | None => []
          end)
         ++ (match slot_after table OSSL_FUNC_CORE_SET_ERROR_DEBUG
                              (set_error_debug (fns c)) with
             | Some fn => [Host_set_error_debug fn hnd file line func]
             | None => []
             end)
         ++ (match slot_after table OSSL_FUNC_CORE_VSET_ERROR
                              (vset_error (fns c)) with
             | Some fn => [Host_vset_error fn hnd err fmt args]
             | None => []
             end).
Proof.
  eexists. split; [reflexivity|].
  destruct (core_init_scan_slots table (fns c)) as (_ & Hn & Hd & Hv).
  unfold ossl_put_error. cbn [fns handle]. now rewrite Hn, Hd, Hv.
Qed.

(** X5.  After [core_teardown], on a context or on NULL, [ossl_put_error]
    makes no call at all, and a further [core_teardown] changes nothing and
    frees nothing; [core_teardown] never frees more than one context. *)
Theorem X5_core_teardown_is_final core err file line func fmt args :
  ossl_put_error (core_teardown core).1 err file line func fmt args = []
  /\ core_teardown (core_teardown core).1 = ((core_teardown core).1, [])
  /\ (length (core_teardown core).2 <= 1)%nat.
Proof.
  destruct core as [c|]; simpl; [|auto].
  repeat split. destruct (libctx c); simpl; lia.
Qed.

(** * Further properties: the backend handle *)

(** X6.  [fwd_teardown] unloads the backend at most once and only if one
    is loaded, keeps the cached tables and the name, and is final: a second
    [fwd_teardown] changes nothing and unloads nothing, and every later
    resolution, whatever the operation kind, name and function id, returns
    NULL without a backend call and without touching the handle. *)
Theorem X6_fwd_teardown_is_final fwd operation_id algorithm fid :
  (unload_count (fwd_teardown fwd).2 <= 1)%nat
  /\ fwd_teardown (fwd_teardown fwd).1 = ((fwd_teardown fwd).1, [])
  /\ (alg_cache ∘ fwd_base <$> (fwd_teardown fwd).1)
     = (alg_cache ∘ fwd_base <$> fwd)
  /\ (fwd_name <$> (fwd_teardown fwd).1) = (fwd_name <$> fwd)
  /\ fwd_get_func (fwd_base <$> (fwd_teardown fwd).1) operation_id
                  (Some algorithm) fid
     = Ret {| res_func := None;
              res_fwd := fwd_base <$> (fwd_teardown fwd).1;
              res_trace := [] |}.
Proof.
  destruct fwd as [h|]; simpl; [|auto].
  repeat split. destruct (provider (fwd_base h)); simpl; lia.
Qed.

Lemma fwd_init_cases env h name lib dbg :
  exists rc h' tr,
    fwd_init env (Some h) (Some name) (Some lib) (Some dbg)
    = (rc, Some h', tr)
    /\ alg_cache (fwd_base h') = alg_cache (fwd_base h)
    /\ match OSSL_PROVIDER_load env lib name with
       | Some prov =>
           match OSSL_PROVIDER_get0_provider_ctx env prov with
           | Some ctx =>
               rc = OSSL_RV_OK
               /\ provider (fwd_base h') = Some prov
               /\ fwd_ctx h' = Some ctx
               /\ fwd_name h' = Some name
               /\ unload_count tr = 0%nat
           | None =>
               rc = OSSL_RV_ERR
               /\ provider (fwd_base h') = None
               /\ fwd_ctx h' = None
               /\ fwd_name h' = fwd_name h
               /\ tr = [Provider_load lib name; Provider_get0_ctx;
                        Provider_unload prov]
           end
       | None =>
           rc = OSSL_RV_ERR
           /\ provider (fwd_base h') = None
           /\ fwd_ctx h' = None
           /\ fwd_name h' = fwd_name h
           /\ tr = [Provider_load lib name]
       end.
Proof.
  unfold fwd_init.
  destruct (OSSL_PROVIDER_load env lib name) as [prov|]; simpl.
  - destruct (OSSL_PROVIDER_get0_provider_ctx env prov) as [ctx|]; simpl;
      do 3 eexists; (split; [reflexivity|]); simpl; auto 10.
  - do 3 eexists. split; [reflexivity|]. simpl. auto 10.
Qed.


(** X7.  [fwd_init] with all four pointers present: it returns
    [OSSL_RV_OK] exactly when the backend loads and hands out a context
    pointer, and then the handle holds that backend, that pointer and the
    name, nothing having been unloaded; otherwise it returns [OSSL_RV_ERR]
    with no backend and no context pointer left in the handle, the name as
    it was, and the backend, if it had loaded, unloaded again.  In both
    cases the cached tables are what they were. *)
Theorem X7_fwd_init_outcome env h name lib dbg :
  exists rc h' tr,
    fwd_init env (Some h) (Some name) (Some lib) (Some dbg)
    = (rc, Some h', tr)
    /\ alg_cache (fwd_base h') = alg_cache (fwd_base h)
    /\ match OSSL_PROVIDER_load env lib name with
       | Some prov =>
           match OSSL_PROVIDER_get0_provider_ctx env prov with
           | Some ctx =>
               rc = OSSL_RV_OK
               /\ provider (fwd_base h') = Some prov
               /\ fwd_ctx h' = Some ctx
               /\ fwd_name h' = Some name
               /\ unload_count tr = 0%nat
           | None =>
               rc = OSSL_RV_ERR
               /\ provider (fwd_base h') = None
               /\ fwd_ctx h' = None
               /\ fwd_name h' = fwd_name h
               /\ tr = [Provider_load lib name; Provider_get0_ctx;
                        Provider_unload prov]
           end
       | None =>
           rc = OSSL_RV_ERR
           /\ provider (fwd_base h') = None
           /\ fwd_ctx h' = None
           /\ fwd_name h' = fwd_name h
           /\ tr = [Provider_load lib name]
       end.
Proof. apply fwd_init_cases. Qed.

(** X8.  [fwd_init] with a NULL handle, name, library context or debug
    pointer returns [OSSL_RV_ERR] at once: nothing is loaded and the
    handle, if there is one, is left as it was. *)
Theorem X8_fwd_init_rejects_null env fwd name lib dbg :
  fwd = None \/ name = None \/ lib = None \/ dbg = None ->
  fwd_init env fwd name lib dbg = (OSSL_RV_ERR, fwd, []).
Proof.
  intros H. unfold fwd_init.
  destruct fwd, name, lib, dbg; trivial;
    destruct H as [H|[H|[H|H]]]; discriminate.
Qed.

Lemma X8_fwd_init_rejects_null_witness :
  fwd_init env_default (Some blank_handle) None (Some 1) (Some 1)
  = (OSSL_RV_ERR, Some blank_handle, []).
Proof.
  apply (X8_fwd_init_rejects_null env_default (Some blank_handle) None
           (Some 1) (Some 1)).
  right. left. reflexivity.
Defined.

(** X9.  Neither [fwd_teardown] nor [fwd_init] clears the table cache: a
    table cached for an operation kind before a handle is torn down is
    still there after the handle has been initialised again, with whatever
    backend, and resolutions for that operation kind are answered from it
    without a query to the new backend. *)
Theorem X9_cached_table_survives_reinit env h name lib dbg operation_id algs
    h' tr algorithm fid :
  0 < operation_id <= OSSL_OP__HIGHEST ->
  alg_cache (fwd_base h) !! operation_id = Some algs ->
  fwd_init env (fwd_teardown (Some h)).1 (Some name) (Some lib) (Some dbg)
  = (OSSL_RV_OK, Some h', tr) ->
  fwd_get_func (Some (fwd_base h')) operation_id (Some algorithm) fid
  = Ret {| res_func := scan_algorithms algs algorithm fid;
           res_fwd := Some (fwd_base h');
           res_trace := [] |}.
Proof.
  intros Hop Hc Hinit.
  set (h0 := {| fwd_base := {| provider := None;
                               alg_cache := alg_cache (fwd_base h) |};
                fwd_ctx := None; fwd_name := fwd_name h |}).
  change (fwd_teardown (Some h)).1 with (Some h0) in Hinit.
  destruct (fwd_init_cases env h0 name lib dbg)
    as (rc0 & h1 & tr0 & Hrun & Hcache & Hcases).
  rewrite Hinit in Hrun. injection Hrun as <- <- <-.
  simpl in Hcache.
  destruct (OSSL_PROVIDER_load env lib name) as [prov|];
    [|destruct Hcases as [Hrc _]; discriminate].
  destruct (OSSL_PROVIDER_get0_provider_ctx env prov) as [ctx|];
    [|destruct Hcases as [Hrc _]; discriminate].
  destruct Hcases as (_ & Hp & _).
  apply (fwd_get_func_cached (fwd_base h') prov); trivial.
  now rewrite Hcache.
Qed.

Lemma X9_cached_table_survives_reinit_witness :
  fwd_get_func (Some (fwd_base reloaded_handle)) OSSL_OP_SIGNATURE
               (Some "ECDSA"%string) 7
  = Ret {| res_func := scan_algorithms (table_of "ECDSA") "ECDSA" 7;
           res_fwd := Some (fwd_base reloaded_handle);
           res_trace := [] |}.
Proof.
  apply (X9_cached_table_survives_reinit env_default used_handle
           "default" 1 1 OSSL_OP_SIGNATURE (table_of "ECDSA")
           reloaded_handle [Provider_load 1 "default"; Provider_get0_ctx]).
  - unfold OSSL_OP_SIGNATURE, OSSL_OP__HIGHEST. lia.
  - reflexivity.
  - reflexivity.
Defined.

(** * Further properties: the resolver *)

Section ResolverMore.

#[local] Arguments fwd_get_func : simpl never.

Lemma find_function_sound impl fid fn :
  find_function impl fid = Some fn ->
  fid <> 0
  /\ exists d, In d impl /\ function_id d = fid /\ function d = fn.
Proof.
  induction impl as [|d rest IH]; simpl; [discriminate|].
  destruct (Z.eqb_spec (function_id d) 0) as [|Hne]; [discriminate|].
  destruct (Z.eqb_spec (function_id d) fid) as [E|_].
  - intros [= <-]. split; [congruence|]. eauto.
  - intros H. destruct (IH H) as (H0 & d' & Hin & Hid & Hfn). eauto 6.
Qed.

Lemma scan_algorithms_sound algs algorithm fid fn :
  scan_algorithms algs algorithm fid = Some fn ->
  exists entry,
    selected_entry algs algorithm = Some entry
    /\ In entry algs
    /\ entry_matches (algorithm_names entry) algorithm = true
    /\ find_function (implementation entry) fid = Some fn.
Proof.
  induction algs as [|a rest IH]; simpl; [discriminate|].
  destruct (entry_matches (algorithm_names a) algorithm) eqn:E.
  - intros H. exists a. auto.
  - intros H. destruct (IH H) as (entry & H1 & H2 & H3 & H4). eauto 6.
Qed.

(** The table a call works on: the cached one, or else the queried one. *)
Lemma fwd_get_func_table f operation_id algorithm fid r :
  fwd_get_func (Some f) operation_id (Some algorithm) fid = Ret r ->
  res_func r = None
  \/ exists algs,
       res_func r = scan_algorithms algs algorithm fid
       /\ 0 < operation_id <= OSSL_OP__HIGHEST
       /\ (alg_cache f !! operation_id = Some algs
           \/ (alg_cache f !! operation_id = None
               /\ exists prov no_cache,
                    provider f = Some prov
                    /\ query_operation prov operation_id
                       = (Some algs, no_cache))).
Proof.
  unfold fwd_get_func.
  destruct (provider f) as [prov|] eqn:Ep; [|intros [= <-]; auto].
  destruct (Z.leb_spec operation_id 0); simpl; [intros [= <-]; auto|].
  destruct (Z.ltb_spec OSSL_OP__HIGHEST operation_id); simpl;
    [intros [= <-]; auto|].
  destruct (alg_cache f !! operation_id) as [t|] eqn:Ec.
  - intros [= <-]. right. exists t. simpl. split; [reflexivity|].
    split; [lia|]. auto.
  - destruct (query_operation prov operation_id) as [[t|] nc] eqn:Eq;
      simpl; intros [= <-]; simpl; [|auto].
    right. exists t. split; [reflexivity|]. split; [lia|]. right.
    split; [reflexivity|]. eauto.
Qed.

Lemma fwd_get_func_returns fwd operation_id algorithm fid :
  exists r, fwd_get_func fwd operation_id (Some algorithm) fid = Ret r.
Proof.
  unfold fwd_get_func.
  destruct fwd as [f|]; [|eauto].
  destruct (provider f) as [prov|]; [|eauto].
  destruct ((operation_id <=? 0) || (OSSL_OP__HIGHEST <? operation_id));
    [eauto|].
  destruct (alg_cache f !! operation_id); [eauto|].
  destruct (query_operation prov operation_id) as [t nc]. eauto.
Qed.

End ResolverMore.

(** X10.  With an algorithm name at hand, [fwd_get_func] on a NULL handle,
    on a handle without a loaded backend, or with an operation id that is
    not in 1 .. OSSL_OP__HIGHEST returns NULL, makes no backend call and
    leaves the handle, its cache included, as it was. *)
Theorem X10_resolver_rejects_without_side_effect
    fwd operation_id algorithm fid :
  fwd = None
  \/ (exists f, fwd = Some f /\ provider f = None)
  \/ operation_id <= 0
  \/ OSSL_OP__HIGHEST < operation_id ->
  fwd_get_func fwd operation_id (Some algorithm) fid
  = Ret {| res_func := None; res_fwd := fwd; res_trace := [] |}.
Proof. apply fwd_get_func_rejects. Qed.

Lemma X10_resolver_rejects_without_side_effect_witness :
  fwd_get_func (Some cached_handle) 23 (Some "ECDSA"%string) 7
  = Ret {| res_func := None; res_fwd := Some cached_handle;
           res_trace := [] |}.
Proof.
  apply (X10_resolver_rejects_without_side_effect
           (Some cached_handle) 23 "ECDSA" 7).
  right. right. right. unfold OSSL_OP__HIGHEST. lia.
Defined.

(** X11.  The whole outcome of a resolution (function reference, handle
    afterwards, backend calls) is the same for two algorithm names that
    differ only in the case of their letters. *)
Theorem X11_resolution_ignores_letter_case fwd operation_id s t fid :
  eq_ci s t = true ->
  fwd_get_func fwd operation_id (Some s) fid
  = fwd_get_func fwd operation_id (Some t) fid.
Proof.
  intros H. unfold fwd_get_func.
  destruct fwd as [f|]; trivial.
  destruct (provider f) as [prov|]; trivial.
  destruct ((operation_id <=? 0) || (OSSL_OP__HIGHEST <? operation_id));
    trivial.
  destruct (alg_cache f !! operation_id) as [algs|].
  - simpl. now rewrite (scan_algorithms_eq_ci algs s t fid H).
  - destruct (query_operation prov operation_id) as [[algs|] nc]; simpl;
      trivial.
    now rewrite (scan_algorithms_eq_ci algs s t fid H).
Qed.

Lemma X11_resolution_ignores_letter_case_witness :
  fwd_get_func (Some cached_handle) OSSL_OP_SIGNATURE (Some "ecDsa"%string) 7
  = fwd_get_func (Some cached_handle) OSSL_OP_SIGNATURE
                 (Some "ECDSA"%string) 7.
Proof.
  apply (X11_resolution_ignores_letter_case
           (Some cached_handle) OSSL_OP_SIGNATURE "ecDsa" "ECDSA" 7).
  reflexivity.
Defined.

(** X12.  A function reference that [fwd_get_func] returns is never made
    up: the handle is loaded and the operation id in range, the table is
    the cached one or, the slot being empty, the one just queried, the
    descriptor is the first of the table that passes the alias test, the
    name does occur in its alias list bounded by the ends of the list or
    colons, and the function is bound in that descriptor's function table
    to the requested id, which is not 0. *)
Theorem X12_returned_function_comes_from_selected_entry
    fwd operation_id algorithm fid r fn :
  fwd_get_func fwd operation_id (Some algorithm) fid = Ret r ->
  res_func r = Some fn ->
  exists f algs entry d,
    fwd = Some f
    /\ is_Some (provider f)
    /\ 0 < operation_id <= OSSL_OP__HIGHEST
    /\ (alg_cache f !! operation_id = Some algs
        \/ (alg_cache f !! operation_id = None
            /\ exists prov no_cache,
                 provider f = Some prov
                 /\ query_operation prov operation_id
                    = (Some algs, no_cache)))
    /\ selected_entry algs algorithm = Some entry
    /\ In entry algs
    /\ occurs_as_whole_alias (algorithm_names entry) algorithm = true
    /\ In d (implementation entry)
    /\ function_id d = fid
    /\ function d = fn
    /\ fid <> 0.
Proof.
  intros Hrun Hfn.
  destruct fwd as [f|]; [|injection Hrun as <-; discriminate].
  assert (Hp : is_Some (provider f)).
  { destruct (provider f) eqn:Ep; [eauto|].
    unfold fwd_get_func in Hrun. rewrite Ep in Hrun.
    injection Hrun as <-. discriminate. }
  destruct (fwd_get_func_table f operation_id algorithm fid r Hrun)
    as [Hnone|(algs & Hscan & Hop & Htab)]; [congruence|].
  rewrite Hfn in Hscan. symmetry in Hscan.
  destruct (scan_algorithms_sound algs algorithm fid fn Hscan)
    as (entry & Hsel & Hin & Hm & Hff).
  destruct (find_function_sound _ _ _ Hff) as (H0 & d & Hd & Hid & Hfun).
  exists f, algs, entry, d.
  split; [reflexivity|].
  repeat (split; [assumption|]).
  split; [now apply entry_matches_sound|]. auto.
Qed.

Lemma X12_returned_function_comes_from_selected_entry_witness :
  exists f algs entry d,
    Some cached_handle = Some f
    /\ is_Some (provider f)
    /\ 0 < OSSL_OP_SIGNATURE <= OSSL_OP__HIGHEST
    /\ (alg_cache f !! OSSL_OP_SIGNATURE = Some algs
        \/ (alg_cache f !! OSSL_OP_SIGNATURE = None
            /\ exists prov no_cache,
                 provider f = Some prov
                 /\ query_operation prov OSSL_OP_SIGNATURE
                    = (Some algs, no_cache)))
    /\ selected_entry algs "ecdsa" = Some entry
    /\ In entry algs
    /\ occurs_as_whole_alias (algorithm_names entry) "ecdsa" = true
    /\ In d (implementation entry)
    /\ function_id d = 7
    /\ function d = F
    /\ 7 <> 0.
Proof.
  exact (X12_returned_function_comes_from_selected_entry
           (Some cached_handle) OSSL_OP_SIGNATURE "ecdsa" 7
           {| res_func := Some F; res_fwd := Some cached_handle;
              res_trace := [] |} F eq_refl eq_refl).
Defined.



Section Answers.

#[local] Arguments fwd_get_func : simpl never.

Lemma resolve_funcs_cached f prov operation_id algs requests :
  provider f = Some prov ->
  0 < operation_id <= OSSL_OP__HIGHEST ->
  alg_cache f !! operation_id = Some algs ->
  resolve_funcs f operation_id requests
  = map (fun req => scan_algorithms algs req.1 req.2) requests.
Proof.
  intros Hp Hop Hc. induction requests as [|[a fid] rest IH]; simpl; trivial.
  rewrite (fwd_get_func_cached f prov operation_id a fid algs Hp Hop Hc).
  simpl. now rewrite IH.
Qed.

Lemma resolve_funcs_fresh f prov operation_id t no_cache requests :
  provider f = Some prov ->
  0 < operation_id <= OSSL_OP__HIGHEST ->
  alg_cache f !! operation_id = None ->
  query_operation prov operation_id = (t, no_cache) ->
  resolve_funcs f operation_id requests
  = map (fun req => match t with
                    | Some algs => scan_algorithms algs req.1 req.2
                    | None => None
                    end) requests.
Proof.
  intros Hp Hop Hc Hq.
  assert (Ef : {| provider := Some prov; alg_cache := alg_cache f |} = f).
  { destruct f as [p c]. simpl in *. now subst. }
  induction requests as [|[a fid] rest IH]; simpl; trivial.
  rewrite (fwd_get_func_fresh f prov operation_id a fid t no_cache
             Hp Hop Hc Hq).
  simpl. f_equal.
  destruct t as [algs|]; [|now rewrite Ef].
  destruct (no_cache =? 0); [|now rewrite Ef].
  apply (resolve_funcs_cached _ prov); trivial.
  simpl. apply lookup_insert_eq.
Qed.

End Answers.

(** X14.  Caching is invisible in the answers: on a loaded handle with an
    empty slot, every resolution of a run returns what scanning the
    backend's table for the operation kind returns for its name and
    function id (NULL when the backend has no table), whether the backend
    allows caching or not. *)
Theorem X14_answers_do_not_depend_on_caching
    f prov operation_id t no_cache requests :
  provider f = Some prov ->
  0 < operation_id <= OSSL_OP__HIGHEST ->
  alg_cache f !! operation_id = None ->
  query_operation prov operation_id = (t, no_cache) ->
  resolve_funcs f operation_id requests
  = map (fun req => match t with
                    | Some algs => scan_algorithms algs req.1 req.2
                    | None => None
                    end) requests.
Proof. apply resolve_funcs_fresh. Qed.

Lemma X14_answers_do_not_depend_on_caching_witness :
  resolve_funcs (loaded (backend_of (Some (table_of "A:B:C")) 0))
                OSSL_OP_SIGNATURE
                [("B"%string, 7); ("AB"%string, 7); ("c"%string, 7)]
  = resolve_funcs (loaded (backend_of (Some (table_of "A:B:C")) 1))
                  OSSL_OP_SIGNATURE
                  [("B"%string, 7); ("AB"%string, 7); ("c"%string, 7)].
Proof.
  assert (Hop : 0 < OSSL_OP_SIGNATURE <= OSSL_OP__HIGHEST)
    by (unfold OSSL_OP_SIGNATURE, OSSL_OP__HIGHEST; lia).
  rewrite (X14_answers_do_not_depend_on_caching
             (loaded (backend_of (Some (table_of "A:B:C")) 0))
             (backend_of (Some (table_of "A:B:C")) 0)
             OSSL_OP_SIGNATURE (Some (table_of "A:B:C")) 0 _
             eq_refl Hop eq_refl eq_refl).
  rewrite (X14_answers_do_not_depend_on_caching
             (loaded (backend_of (Some (table_of "A:B:C")) 1))
             (backend_of (Some (table_of "A:B:C")) 1)
             OSSL_OP_SIGNATURE (Some (table_of "A:B:C")) 1 _
             eq_refl Hop eq_refl eq_refl).
  reflexivity.
Defined.

(** X15.  The typed wrappers for key management, asymmetric cipher and
    signature fault exactly when the key type is none of RSA, RSA-PSS and
    EC, whatever the handle and the function id; the key-exchange wrapper,
    which takes no key type, never faults. *)
Theorem X15_typed_wrappers_fault_iff_unrecognized fwd pkey_type fid :
  (fwd_keymgmt_get_func fwd pkey_type fid = Fault
   <-> pkey_type <> EVP_PKEY_RSA /\ pkey_type <> EVP_PKEY_RSA_PSS
       /\ pkey_type <> EVP_PKEY_EC)
  /\ (fwd_asym_get_func fwd pkey_type fid = Fault
      <-> pkey_type <> EVP_PKEY_RSA /\ pkey_type <> EVP_PKEY_RSA_PSS
          /\ pkey_type <> EVP_PKEY_EC)
  /\ (fwd_sign_get_func fwd pkey_type fid = Fault
      <-> pkey_type <> EVP_PKEY_RSA /\ pkey_type <> EVP_PKEY_RSA_PSS
          /\ pkey_type <> EVP_PKEY_EC)
  /\ fwd_keyexch_get_func fwd fid <> Fault.
Proof.
  assert (Hret : forall op a, fwd_get_func fwd op (Some a) fid <> Fault).
  { intros op a. destruct (fwd_get_func_returns fwd op a fid) as [r ->].
    discriminate. }
  assert (Halgo : forall sign,
            (exists a, fwd_get_algo pkey_type sign = Some a
                       /\ (pkey_type = EVP_PKEY_RSA
                           \/ pkey_type = EVP_PKEY_RSA_PSS
                           \/ pkey_type = EVP_PKEY_EC))
            \/ (fwd_get_algo pkey_type sign = None
                /\ pkey_type <> EVP_PKEY_RSA
                /\ pkey_type <> EVP_PKEY_RSA_PSS
                /\ pkey_type <> EVP_PKEY_EC)).
  { intros sign. unfold fwd_get_algo.
    destruct (Z.eqb_spec pkey_type EVP_PKEY_RSA); [left; eauto|].
    destruct (Z.eqb_spec pkey_type EVP_PKEY_RSA_PSS); [left; eauto|].
    destruct (Z.eqb_spec pkey_type EVP_PKEY_EC);
      [left; destruct sign; eauto|].
    right. auto. }
  unfold fwd_keymgmt_get_func, fwd_asym_get_func, fwd_sign_get_func,
    fwd_keyexch_get_func.
  split; [|split; [|split; [|apply Hret]]].
  - split.
    + intros H.
      destruct (Halgo false) as [(a & Ha & _)|(_ & Hn)]; [|exact Hn].
      rewrite Ha in H. exfalso. exact (Hret _ _ H).
    + intros (H1 & H2 & H3).
      now rewrite (fwd_get_algo_unrecognized pkey_type false H1 H2 H3).
  - split.
    + intros H.
      destruct (Halgo false) as [(a & Ha & _)|(_ & Hn)]; [|exact Hn].
      rewrite Ha in H. exfalso. exact (Hret _ _ H).
    + intros (H1 & H2 & H3).
      now rewrite (fwd_get_algo_unrecognized pkey_type false H1 H2 H3).
  - split.
    + intros H.
      destruct (Halgo true) as [(a & Ha & _)|(_ & Hn)]; [|exact Hn].
      rewrite Ha in H. exfalso. exact (Hret _ _ H).
    + intros (H1 & H2 & H3).
      now rewrite (fwd_get_algo_unrecognized pkey_type true H1 H2 H3).
Qed.

(** * Further properties: the codec *)

Section CodecMore.

Lemma int_of_size_t_le z : 0 <= z -> int_of_size_t z <= z.
Proof.
  intros Hz. unfold int_of_size_t.
  pose proof (Z.mod_le z (2 ^ 32) Hz ltac:(lia)).
  destruct (z mod 2 ^ 32 <? 2 ^ 31); lia.
Qed.

(** Inside the readable bytes [BN_bin2bn] does not fault. *)
Lemma BN_bin2bn_returns ok buf off len :
  0 <= off -> 0 <= len -> off + len <= Z.of_nat (length buf) ->
  exists v, BN_bin2bn ok buf off len = Ret v.
Proof.
  intros Hoff Hlen Hb. unfold BN_bin2bn.
  pose proof (int_of_size_t_le len Hlen).
  destruct ok; simpl; [|eauto].
  destruct (int_of_size_t len <? 0); [eauto|].
  destruct (int_of_size_t len =? 0); [eauto|].
  destruct (Z.leb_spec (off + int_of_size_t len) (Z.of_nat (length buf)));
    [eauto|lia].
Qed.

(** [BN_bin2bn] looks at no byte beyond [off + len]. *)
Lemma BN_bin2bn_prefix ok raw1 raw2 off len n :
  0 <= off -> 0 <= len -> off + len <= n ->
  n <= Z.of_nat (length raw1) -> n <= Z.of_nat (length raw2) ->
  take (Z.to_nat n) raw1 = take (Z.to_nat n) raw2 ->
  BN_bin2bn ok raw1 off len = BN_bin2bn ok raw2 off len.
Proof.
  intros Hoff Hlen Hn H1 H2 Heq. unfold BN_bin2bn.
  pose proof (int_of_size_t_le len Hlen).
  destruct ok; simpl; trivial.
  destruct (Z.ltb_spec (int_of_size_t len) 0); trivial.
  destruct (int_of_size_t len =? 0); trivial.
  destruct (Z.leb_spec (off + int_of_size_t len) (Z.of_nat (length raw1)));
    [|lia].
  destruct (Z.leb_spec (off + int_of_size_t len) (Z.of_nat (length raw2)));
    [|lia].
  do 3 f_equal.
  rewrite !take_drop_commute.
  assert (Hmin : (Z.to_nat off + Z.to_nat (int_of_size_t len)
                  = Nat.min (Z.to_nat off + Z.to_nat (int_of_size_t len))
                            (Z.to_nat n))%nat) by lia.
  rewrite Hmin, <- !take_take, Heq. reflexivity.
Qed.

End CodecMore.

(** X16.  With honest lengths the codec is memory safe: when [raw_siglen]
    bytes can be read behind [raw_sig] and the capacity declared in
    [*siglen] does not exceed the buffer behind [sig], the call returns,
    whatever libcrypto does: no byte outside the raw signature is read and
    none outside the buffer is written; the buffer keeps its length, and
    in sizing mode there is none afterwards either. *)
Theorem X16_codec_memory_safe lc raw raw_siglen sig siglen :
  0 <= raw_siglen <= Z.of_nat (length raw) ->
  (forall buf, sig = Some buf -> siglen <= Z.of_nat (length buf)) ->
  exists r,
    ossl_ecdsa_signature lc (Some raw) raw_siglen sig siglen = Ret r
    /\ match sig, sig_out r with
       | Some buf, Some buf' => length buf' = length buf
       | None, None => True
       | _, _ => False
       end.
Proof.
  intros Hn Hcap. unfold ossl_ecdsa_signature.
  destruct (raw_siglen =? 0);
    [eexists; split; [reflexivity|]; simpl; destruct sig; auto|].
  destruct (ECDSA_SIG_new_ok lc); cbn [negb];
    [|eexists; split; [reflexivity|]; simpl; destruct sig; auto].
  assert (Hh : 0 <= raw_siglen / 2
               /\ raw_siglen / 2 + raw_siglen / 2 <= raw_siglen)
    by (Z.div_mod_to_equations; lia).
  destruct (BN_bin2bn_returns (BN_new_r_ok lc) raw 0 (raw_siglen / 2))
    as [vr ->]; [lia..|].
  destruct (BN_bin2bn_returns (BN_new_s_ok lc) raw (raw_siglen / 2)
              (raw_siglen / 2)) as [vs ->]; [lia..|].
  destruct (ECDSA_SIG_set0 vr vs) as [rc0 [ec|]];
    [|eexists; split; [reflexivity|]; simpl; destruct sig; auto].
  unfold i2d_ECDSA_SIG_size, i2d_ECDSA_SIG_write, write_bytes.
  destruct (ossl_encode_der_dsa_sig (sig_r ec) (sig_s ec)) as [der|].
  2:{ destruct (i2d_size_ok lc); simpl;
        eexists; (split; [reflexivity|]); simpl; destruct sig; auto. }
  destruct (i2d_size_ok lc);
    [|simpl; eexists; split; [reflexivity|]; simpl; destruct sig; auto].
  destruct (Z.of_nat (length der) <=? 0) eqn:Epos;
    [eexists; split; [reflexivity|]; simpl; destruct sig; auto|].
  destruct sig as [buf|]; [|eexists; split; [reflexivity|]; simpl; auto].
  specialize (Hcap buf eq_refl).
  destruct (Z.ltb_spec siglen (Z.of_nat (length der)));
    [eexists; split; [reflexivity|]; simpl; auto|].
  destruct (i2d_write_stop lc) as [k|].
  - pose proof (length_take der k) as Hk.
    destruct (Nat.leb_spec (length (take k der)) (length buf)) as [Hle|]; [|lia].
    simpl. eexists. split; [reflexivity|]. simpl.
    rewrite length_app, length_drop. lia.
  - destruct (Nat.leb_spec (length der) (length buf)) as [Hle|]; [|lia].
    rewrite Epos. eexists. split; [reflexivity|]. simpl.
    rewrite length_app, length_drop. lia.
Qed.

Lemma X16_codec_memory_safe_witness :
  exists r,
    ossl_ecdsa_signature libcrypto_ok (Some raw4) 4
                         (Some (repeat Byte.xff 12)) 12 = Ret r
    /\ match Some (repeat Byte.xff 12), sig_out r with
       | Some buf, Some buf' => length buf' = length buf
       | None, None => True
       | _, _ => False
       end.
Proof.
  apply (X16_codec_memory_safe libcrypto_ok raw4 4
           (Some (repeat Byte.xff 12)) 12).
  - simpl. lia.
  - intros buf [= <-]. simpl. lia.
Defined.

(** X17.  A call that does not return [OSSL_RV_OK] leaves the length behind
    [siglen] as it was; it also leaves the buffer behind [sig] as it was
    unless it got as far as the writing call of libcrypto (which is only
    reached with a buffer whose declared capacity suffices). *)
Theorem X17_failure_leaves_outputs lc raw_sig raw_siglen sig siglen r :
  ossl_ecdsa_signature lc raw_sig raw_siglen sig siglen = Ret r ->
  rc r <> OSSL_RV_OK ->
  siglen_out r = siglen
  /\ (sig_out r = sig
      \/ (In (Call_i2d_ECDSA_SIG true) (calls r)
          /\ is_Some (i2d_write_stop lc)
          /\ is_Some sig)).
Proof.
  unfold ossl_ecdsa_signature, OSSL_RV_OK.
  destruct raw_sig as [raw|]; [|intros [= <-]; simpl; auto].
  destruct (raw_siglen =? 0); [intros [= <-]; simpl; auto|].
  destruct (ECDSA_SIG_new_ok lc); cbn [negb]; [|intros [= <-]; simpl; auto].
  destruct (BN_bin2bn _ raw 0 (raw_siglen / 2)) as [|vr]; [discriminate|].
  destruct (BN_bin2bn _ raw (raw_siglen / 2) (raw_siglen / 2)) as [|vs];
    [discriminate|].
  destruct vr as [vr|], vs as [vs|]; cbn [ECDSA_SIG_set0];
    try (intros [= <-]; simpl; auto).
  unfold i2d_ECDSA_SIG_size, i2d_ECDSA_SIG_write, write_bytes.
  cbn [sig_r sig_s].
  destruct (i2d_size_ok lc); [|simpl; intros [= <-]; simpl; auto].
  destruct (ossl_encode_der_dsa_sig vr vs) as [der|];
    [|simpl; intros [= <-]; simpl; auto].
  destruct (Z.of_nat (length der) <=? 0) eqn:Epos;
    [intros [= <-]; simpl; auto|].
  destruct sig as [buf|]; [|intros [= <-]; simpl; congruence].
  destruct (siglen <? Z.of_nat (length der)); [intros [= <-]; simpl; auto|].
  destruct (i2d_write_stop lc) as [k|].
  - destruct (length (take k der) <=? length buf)%nat; [|discriminate].
    simpl. intros [= <-]; simpl. intros _. split; [reflexivity|].
    right. unfold calls_written. simpl. eauto 10.
  - destruct (length der <=? length buf)%nat; [|discriminate].
    rewrite Epos. intros [= <-]; simpl. congruence.
Qed.

Lemma X17_failure_leaves_outputs_witness :
  11 = 11
  /\ (Some (repeat Byte.xff 12) = Some (repeat Byte.xff 12)
      \/ (In (Call_i2d_ECDSA_SIG true) calls_sized
          /\ is_Some (i2d_write_stop libcrypto_ok)
          /\ is_Some (Some (repeat Byte.xff 12)))).
Proof.
  apply (X17_failure_leaves_outputs libcrypto_ok (Some raw4) 4
           (Some (repeat Byte.xff 12)) 11
           {| rc := OSSL_RV_ERR; sig_out := Some (repeat Byte.xff 12);
              siglen_out := 11; calls := calls_sized |}).
  - reflexivity.
  - discriminate.
Defined.

(** X18.  The signature object is released on every exit that follows its
    creation, once and as the last call, and never otherwise: a call that
    returns made no libcrypto call at all (raw pointer NULL or raw length
    0), or only the failed [ECDSA_SIG_new], or a sequence that starts with
    [ECDSA_SIG_new], ends with [ECDSA_SIG_free] and has neither of the two
    in between. *)
Theorem X18_signature_object_released lc raw_sig raw_siglen sig siglen r :
  ossl_ecdsa_signature lc raw_sig raw_siglen sig siglen = Ret r ->
  (calls r = [] /\ (raw_sig = None \/ raw_siglen = 0))
  \/ (calls r = [Call_ECDSA_SIG_new] /\ ECDSA_SIG_new_ok lc = false)
  \/ (exists mid,
        calls r = Call_ECDSA_SIG_new :: mid ++ [Call_ECDSA_SIG_free]
        /\ ECDSA_SIG_new_ok lc = true
        /\ raw_sig <> None /\ raw_siglen <> 0
        /\ ~ In Call_ECDSA_SIG_new mid
        /\ ~ In Call_ECDSA_SIG_free mid).
Proof.
  assert (Hmid : forall cs,
            cs = calls_unset \/ cs = calls_sized \/ cs = calls_written ->
            exists mid,
              cs = Call_ECDSA_SIG_new :: mid ++ [Call_ECDSA_SIG_free]
              /\ ~ In Call_ECDSA_SIG_new mid
              /\ ~ In Call_ECDSA_SIG_free mid).
  { intros cs [-> | [-> | ->]].
    - exists [Call_BN_bin2bn; Call_BN_bin2bn; Call_ECDSA_SIG_set0].
      split; [reflexivity|]. simpl. intuition discriminate.
    - exists [Call_BN_bin2bn; Call_BN_bin2bn; Call_ECDSA_SIG_set0;
              Call_i2d_ECDSA_SIG false].
      split; [reflexivity|]. simpl. intuition discriminate.
    - exists [Call_BN_bin2bn; Call_BN_bin2bn; Call_ECDSA_SIG_set0;
              Call_i2d_ECDSA_SIG false; Call_i2d_ECDSA_SIG true].
      split; [reflexivity|]. simpl. intuition discriminate. }
  unfold ossl_ecdsa_signature.
  destruct raw_sig as [raw|]; [|intros [= <-]; simpl; auto].
  destruct (Z.eqb_spec raw_siglen 0); [intros [= <-]; simpl; auto|].
  destruct (ECDSA_SIG_new_ok lc); cbn [negb]; [|intros [= <-]; simpl; auto].
  intros Hrun. right. right.
  assert (Hcs : calls r = calls_unset \/ calls r = calls_sized
                \/ calls r = calls_written).
  { revert Hrun.
    destruct (BN_bin2bn _ raw 0 (raw_siglen / 2)) as [|vr]; [discriminate|].
    destruct (BN_bin2bn _ raw (raw_siglen / 2) (raw_siglen / 2)) as [|vs];
      [discriminate|].
    destruct (ECDSA_SIG_set0 vr vs) as [rc0 [ec|]];
      [|intros [= <-]; simpl; auto].
    destruct (i2d_ECDSA_SIG_size (i2d_size_ok lc) ec <=? 0);
      [intros [= <-]; simpl; auto|].
    destruct sig as [buf|]; [|intros [= <-]; simpl; auto].
    destruct (siglen <? i2d_ECDSA_SIG_size (i2d_size_ok lc) ec);
      [intros [= <-]; simpl; auto|].
    destruct (i2d_ECDSA_SIG_write (i2d_write_stop lc) ec buf)
      as [|[d' b']]; [discriminate|].
    destruct (d' <=? 0); intros [= <-]; simpl; auto. }
  destruct (Hmid _ Hcs) as (mid & E & H1 & H2).
  exists mid. repeat split; auto; discriminate.
Qed.

Lemma X18_signature_object_released_witness :
  (calls_sized = [] /\ (Some raw4 = None \/ 4 = 0))
  \/ (calls_sized = [Call_ECDSA_SIG_new]
      /\ ECDSA_SIG_new_ok libcrypto_ok = false)
  \/ (exists mid,
        calls_sized = Call_ECDSA_SIG_new :: mid ++ [Call_ECDSA_SIG_free]
        /\ ECDSA_SIG_new_ok libcrypto_ok = true
        /\ Some raw4 <> None /\ 4 <> 0
        /\ ~ In Call_ECDSA_SIG_new mid
        /\ ~ In Call_ECDSA_SIG_free mid).
Proof.
  exact (X18_signature_object_released libcrypto_ok (Some raw4) 4 None 0
           {| rc := OSSL_RV_OK; sig_out := None; siglen_out := 12;
              calls := calls_sized |} eq_refl).
Defined.

(** X19.  The codec reads nothing behind the first [raw_siglen] bytes of
    the raw signature: on two readable raw buffers that agree on their
    first [raw_siglen] bytes it does the same, whatever libcrypto and the
    output arguments are. *)
Theorem X19_codec_reads_only_raw_siglen_bytes
    lc raw1 raw2 raw_siglen sig siglen :
  0 <= raw_siglen ->
  raw_siglen <= Z.of_nat (length raw1) ->
  raw_siglen <= Z.of_nat (length raw2) ->
  take (Z.to_nat raw_siglen) raw1 = take (Z.to_nat raw_siglen) raw2 ->
  ossl_ecdsa_signature lc (Some raw1) raw_siglen sig siglen
  = ossl_ecdsa_signature lc (Some raw2) raw_siglen sig siglen.
Proof.
  intros Hn H1 H2 Heq. unfold ossl_ecdsa_signature.
  assert (Hh : 0 <= raw_siglen / 2
               /\ raw_siglen / 2 + raw_siglen / 2 <= raw_siglen)
    by (Z.div_mod_to_equations; lia).
  rewrite (BN_bin2bn_prefix (BN_new_r_ok lc) raw1 raw2 0 (raw_siglen / 2)
             raw_siglen) by (trivial; lia).
  rewrite (BN_bin2bn_prefix (BN_new_s_ok lc) raw1 raw2 (raw_siglen / 2)
             (raw_siglen / 2) raw_siglen) by (trivial; lia).
  reflexivity.
Qed.

Lemma X19_codec_reads_only_raw_siglen_bytes_witness :
  ossl_ecdsa_signature libcrypto_ok (Some (raw4 ++ [Byte.x11])) 4 None 0
  = ossl_ecdsa_signature libcrypto_ok (Some (raw4 ++ [Byte.x22; Byte.x33]))
                         4 None 0.
Proof.
  apply (X19_codec_reads_only_raw_siglen_bytes libcrypto_ok
           (raw4 ++ [Byte.x11]) (raw4 ++ [Byte.x22; Byte.x33]) 4 None 0).
  - lia.
  - simpl. lia.
  - simpl. lia.
  - reflexivity.
Defined.

(** X20.  The first descriptor that passes the alias test decides alone:
    on a loaded handle and an operation id in range, the function returned
    is the one the function table of that descriptor binds first to the
    requested id before its terminator, and NULL when that table does not
    bind the id (later descriptors are not consulted, whatever they hold)
    or when no descriptor passes the test. *)
Theorem X20_first_matching_descriptor_decides
    f prov operation_id algorithm fid algs no_cache r :
  provider f = Some prov ->
  0 < operation_id <= OSSL_OP__HIGHEST ->
  alg_cache f !! operation_id = Some algs
  \/ (alg_cache f !! operation_id = None
      /\ query_operation prov operation_id = (Some algs, no_cache)) ->
  fwd_get_func (Some f) operation_id (Some algorithm) fid = Ret r ->
  res_func r
  = match selected_entry algs algorithm with
    | Some entry => find_function (implementation entry) fid
    | None => None
    end.
Proof.
  intros Hp Hop Htab Hrun.
  assert (Hscan : res_func r = scan_algorithms algs algorithm fid).
  { destruct Htab as [Hc|[Hc Hq]].
    - rewrite (fwd_get_func_cached f prov operation_id algorithm fid algs
                 Hp Hop Hc) in Hrun.
      now injection Hrun as <-.
    - rewrite (fwd_get_func_fresh f prov operation_id algorithm fid _ _
                 Hp Hop Hc Hq) in Hrun.
      now injection Hrun as <-. }
  rewrite Hscan. clear.
  induction algs as [|a rest IH]; simpl; trivial.
  destruct (entry_matches (algorithm_names a) algorithm); trivial.
Qed.

Lemma X20_first_matching_descriptor_decides_witness :
  res_func {| res_func := None; res_fwd := Some shadowing_handle;
              res_trace := [] |}
  = match selected_entry shadowing_table "EC" with
    | Some entry => find_function (implementation entry) 8
    | None => None
    end.
Proof.
  apply (X20_first_matching_descriptor_decides
           shadowing_handle (backend_of None 0) OSSL_OP_KEYMGMT "EC" 8
           shadowing_table 0).
  - reflexivity.
  - unfold OSSL_OP_KEYMGMT, OSSL_OP__HIGHEST. lia.
  - left. reflexivity.
  - reflexivity.
Defined.
